(** * Fine-tuning tutorial notebook: a model of its code cells

    The notebook [tutorial.ipynb] is a script over one global namespace.
    Its own logic is small: a label-indexing comprehension, a tensor
    concatenation, two three-epoch training loops, a freezing loop and a
    parameter-counting function.  Everything else is a call into the
    tokenizer, tensor, optimiser and adapter libraries.

    The development has four layers:
    - [Tensor]: two-dimensional integer tensors with [torch.cat] along
      dimension 1 and [torch.ones_like];
    - [Encoder]: the tokenizer call (padding to the longest sample,
      truncation), the label comprehension and the class count;
    - [Params]: parameters, the freezing loop, adapter injection and
      the counting loop of [print_trainable_parameters];
    - [Notebook]: the cells as computations over the global namespace,
      with exceptions and a trace of the optimiser events. *)

From stdpp Require Import gmap strings list.
From Stdlib Require Import Ascii QArith.

Open Scope Z_scope.

(** ** Exceptions *)

(** The Python exceptions the cells can raise. *)
Inductive PyError :=
| SyntaxError
| NameError (name : string)
| KeyError (key : string)
| TypeError
| ValueError
| RuntimeError
| ZeroDivisionError
| OSError.

(** Result of evaluating an expression that may raise. *)
Inductive Outcome (A : Type) :=
| Ok (a : A)
| Raise (e : PyError).
Arguments Ok {A} a.
Arguments Raise {A} e.

Definition obind {A B} (m : Outcome A) (k : A → Outcome B) : Outcome B :=
  match m with
  | Ok a => k a
  | Raise e => Raise e
  end.

Notation "x ←! m ; k" := (obind m (λ x, k))
  (at level 100, m at next level, right associativity, only parsing).

(** ** Tensors *)

Module Tensor.

(** A two-dimensional integer tensor: [t_rows] holds the rows and
    [t_cols] the size of dimension 1 (kept apart from the rows, since a
    tensor of shape [0 x L] has no row to read [L] from). *)
Record Tensor2 := mkTensor { t_rows : list (list Z); t_cols : nat }.

Definition nrows (t : Tensor2) : nat := length (t_rows t).

Definition shape (t : Tensor2) : nat * nat := (nrows t, t_cols t).

(** Every row has the length the shape announces. *)
Definition rectangular (t : Tensor2) : Prop :=
  Forall (λ r, length r = t_cols t) (t_rows t).

(** [t[i][j]] *)
Definition get (t : Tensor2) (i j : nat) : option Z :=
  t_rows t !! i ≫= λ r, r !! j.

(** [torch.ones_like(t)]: same shape, every entry 1. *)
Definition ones_like (t : Tensor2) : Tensor2 :=
  mkTensor (replicate (nrows t) (replicate (t_cols t) 1)) (t_cols t).

(** Two tensors side by side; sizes must agree outside dimension 1. *)
Definition hstack (a b : Tensor2) : Outcome Tensor2 :=
  if decide (nrows a = nrows b)
  then Ok (mkTensor (zip_with app (t_rows a) (t_rows b)) (t_cols a + t_cols b))
  else Raise RuntimeError.

(** [torch.cat(ts, dim=1)] *)
Fixpoint cat_dim1 (ts : list Tensor2) : Outcome Tensor2 :=
  match ts with
  | [] => Raise RuntimeError
  | [t] => Ok t
  | t :: rest => r ←! cat_dim1 rest; hstack t r
  end.

(** Cell "Customize the Model Architecture with Instructions":
<<
    input_ids = torch.cat([instruction_ids, input_ids], dim=1)
    attention_mask = torch.cat([torch.ones_like(instruction_ids), attention_mask], dim=1)
>>
    as a function of the three tensors it reads; the pair is the new
    [(input_ids, attention_mask)]. *)
Definition concat_instructions
    (instruction_ids input_ids attention_mask : Tensor2)
    : Outcome (Tensor2 * Tensor2) :=
  ids ←! cat_dim1 [instruction_ids; input_ids];
  mask ←! cat_dim1 [ones_like instruction_ids; attention_mask];
  Ok (ids, mask).

End Tensor.
Import Tensor.

(** ** Tokenizer call, labels and class count *)

Module Encoder.

(** Modelled from the spec: the tokenizer belongs to the transformers
    library, which is not part of the notebook.  Following section 4.1
    (pad to the longest sample, truncate beyond the model's maximum), a
    tokenizer is a map from one string to its token ids, a padding id and
    a maximum length. *)
Record Tokenizer := mkTokenizer {
  tokenize : string → list Z;
  pad_token_id : Z;
  model_max_length : nat
}.

(** What the tokenizer call returns: the entries ['input_ids'] and
    ['attention_mask']. *)
Record BatchEncoding := mkEncoding {
  input_ids : Tensor2;
  attention_mask : Tensor2
}.

(** [truncation=True] *)
Definition truncate (tok : Tokenizer) (s : string) : list Z :=
  take (model_max_length tok) (tokenize tok s).

Definition pad_row (L : nat) (pad : Z) (q : list Z) : list Z :=
  q ++ replicate (L - length q) pad.

Definition mask_row (L : nat) (q : list Z) : list Z :=
  replicate (length q) 1 ++ replicate (L - length q) 0.

(** Modelled from the spec: the call
    [tokenizer(texts, padding=True, truncation=True, return_tensors='pt')]. *)
Definition encode (tok : Tokenizer) (texts : list string) : BatchEncoding :=
  let seqs := truncate tok <$> texts in
  let L := max_list (length <$> seqs) in
  {| input_ids := mkTensor (pad_row L (pad_token_id tok) <$> seqs) L;
     attention_mask := mkTensor (mask_row L <$> seqs) L |}.

(** [l.index(x)]: position of the first element equal to [x];
    [ValueError] when there is none. *)
Fixpoint index (l : list string) (x : string) : Outcome Z :=
  match l with
  | [] => Raise ValueError
  | y :: l' => if decide (y = x) then Ok 0 else i ←! index l' x; Ok (1 + i)
  end.

(** A list comprehension [[f(x) for x in l]] whose element expression may
    raise. *)
Fixpoint comprehension {A B} (f : A → Outcome B) (l : list A) : Outcome (list B) :=
  match l with
  | [] => Ok []
  | x :: l' => y ←! f x; ys ←! comprehension f l'; Ok (y :: ys)
  end.

(** [sentiment_labels = [sentiments.index(sentiment) for sentiment in sentiments]] *)
Definition sentiment_labels (sentiments : list string) : Outcome (list Z) :=
  comprehension (index sentiments) sentiments.

(** [num_classes = len(set(sentiment_labels))] *)
Definition num_classes (labels : list Z) : nat :=
  size (list_to_set labels : gset Z).

(** The distinct labels observed in the sample list. *)
Definition label_set (sentiments : list string) : gset string :=
  list_to_set sentiments.

(** The index of a string, for the strings that have one. *)
Definition index_of (l : list string) (x : string) : Z :=
  match index l x with Ok k => k | Raise _ => 0 end.

End Encoder.
Import Encoder.

(** ** Parameters, freezing, adapters and the parameter count *)

Module Params.

Inductive DType := Int8 | Float16 | Float32.

(** A parameter tensor, as far as the notebook looks at it: its shape
    (for [numel()] and [ndim]), [requires_grad] and the element type. *)
Record Param := mkParam {
  p_shape : list N;
  requires_grad : bool;
  dtype : DType
}.

(** [param.numel()]: the product of the sizes. *)
Definition numel (p : Param) : N := foldr N.mul 1%N (p_shape p).

Definition ndim (p : Param) : nat := length (p_shape p).

(** A model is what [named_parameters()] enumerates, in order. *)
Abbreviation Model := (list (string * Param)).

(** Body of the freezing loop:
<<
    param.requires_grad = False
    if param.ndim == 1:
      param.data = param.data.to(torch.float32)
>> *)
Definition freeze (p : Param) : Param :=
  {| p_shape := p_shape p;
     requires_grad := false;
     dtype := if decide (ndim p = 1%nat) then Float32 else dtype p |}.

(** [for param in model.parameters(): ...] *)
Definition freeze_model (m : Model) : Model := prod_map id freeze <$> m.

(** One iteration of the counting loop, on the pair
    [(trainable_params, all_param)]:
<<
    all_param += param.numel()
    if param.requires_grad:
        trainable_params += param.numel()
>> *)
Definition count_step (acc : N * N) (np : string * Param) : N * N :=
  let '(trainable_params, all_param) := acc in
  let all_param := (all_param + numel np.2)%N in
  let trainable_params :=
    if requires_grad np.2 then (trainable_params + numel np.2)%N
    else trainable_params in
  (trainable_params, all_param).

(** The counting loop of [print_trainable_parameters], from
    [trainable_params = 0] and [all_param = 0]. *)
Definition count_parameters (m : Model) : N * N :=
  foldl count_step (0%N, 0%N) m.

(** What the two counters are meant to hold: the elements of all
    parameters, and the elements of those with [requires_grad] set. *)
Definition sum_numel (m : Model) : N :=
  foldr (λ np acc, (numel np.2 + acc)%N) 0%N m.

Definition sum_trainable (m : Model) : N :=
  foldr (λ np acc, if requires_grad np.2 then (numel np.2 + acc)%N else acc) 0%N m.

(** All parameters have [requires_grad] cleared. *)
Definition frozen (m : Model) : Prop :=
  Forall (λ np, requires_grad np.2 = false) m.

(** The values passed to [LoraConfig]. *)
Record LoraConfig := mkLoraConfig {
  r : N;
  lora_alpha : N;
  target_modules : list string;
  lora_dropout : Q;
  bias : string;
  task_type : string
}.

Definition config : LoraConfig :=
  {| r := 16;
     lora_alpha := 32;
     target_modules := ["q_proj"; "v_proj"];
     lora_dropout := 5 # 100;
     bias := "none";
     task_type := "CAUSAL_LM" |}.

(** The components of a dotted parameter name. *)
Fixpoint split_dots (s : string) : list string :=
  match s with
  | EmptyString => [EmptyString]
  | String c s' =>
      if decide (c = "."%char) then EmptyString :: split_dots s'
      else match split_dots s' with
           | w :: ws => String c w :: ws
           | [] => [String c EmptyString]
           end
  end.

Fixpoint join_dots (ws : list string) : string :=
  match ws with
  | [] => EmptyString
  | [w] => w
  | w :: ws' => w +:+ "." +:+ join_dots ws'
  end.

(** The module a parameter belongs to, when the parameter is the weight
    of one of the targeted projection layers. *)
Definition targeted_module (cfg : LoraConfig) (name : string) : option (list string) :=
  match reverse (split_dots name) with
  | leaf :: layer :: outer =>
      if bool_decide (leaf = "weight") && bool_decide (layer ∈ target_modules cfg)
      then Some (reverse (layer :: outer))
      else None
  | _ => None
  end.

(** Modelled from the spec: the low-rank matrices added for one
    parameter, [r x in] and [out x r] for a targeted [out x in] weight;
    both are trainable. *)
Definition adapters (cfg : LoraConfig) (np : string * Param) : Model :=
  match targeted_module cfg np.1, p_shape np.2 with
  | Some path, [out; inp] =>
      [ (join_dots (path ++ ["lora_A"; "weight"]), mkParam [r cfg; inp] true Float32);
        (join_dots (path ++ ["lora_B"; "weight"]), mkParam [out; r cfg] true Float32) ]
  | _, _ => []
  end.

(** An original weight inside the wrapped model: not trainable. *)
Definition original (p : Param) : Param :=
  {| p_shape := p_shape p; requires_grad := false; dtype := dtype p |}.

(** Modelled from the spec: [get_peft_model(model, config)] belongs to
    the peft library, which is not part of the notebook.  Following
    section 4.3, the wrapped model has every original weight, frozen,
    and after each targeted projection layer its two low-rank matrices,
    trainable.  A model without any targeted layer is refused. *)
Definition get_peft_model (m : Model) (cfg : LoraConfig) : Outcome Model :=
  if decide (m ≫= adapters cfg = [])
  then Raise ValueError
  else Ok (m ≫= λ np, (np.1, original np.2) :: adapters cfg np).

(** A base model whose only targeted projection layer has no element. *)
Definition degenerate_base : Model :=
  [ ("model.decoder.layers.0.self_attn.q_proj.weight", mkParam [0%N; 0%N] false Float16) ].

(** A small base model: one targeted projection with its bias, and an
    embedding that is not targeted. *)
Definition small_base : Model :=
  [ ("model.decoder.embed_tokens.weight", mkParam [10%N; 4%N] true Float16);
    ("model.decoder.layers.0.self_attn.q_proj.weight", mkParam [4%N; 4%N] true Int8);
    ("model.decoder.layers.0.self_attn.q_proj.bias", mkParam [4%N] true Float16) ].

End Params.
Import Params.

(** ** The notebook: cells over the global namespace *)

Module Notebook.

(** What the library objects are asked to do, in the order they are
    asked. *)
Inductive Event :=
| EZeroGrad
| EForward (batch : nat)
| EBackward
| EStep
| ETrain.

(** A model object: the hidden size of its configuration and its
    parameters. *)
Record ModelObj := mkModel { hidden_size : N; parameters : Model }.

(** The values the global names are bound to.  A function value is
    given by what a call of it on a model's parameters does. *)
Inductive PyVal :=
| VModule (name : string)
| VClass (name : string)
| VFunction (call : Model → Outcome unit)
| VObject (class : string)
| VInt (n : Z)
| VStrList (l : list string)
| VIntList (l : list Z)
| VTensor0 (n : Z)
| VTensor1 (l : list Z)
| VTensor (t : Tensor2)
| VEncoding (e : BatchEncoding)
| VTokenizer (tok : Tokenizer)
| VLinear (in_features out_features : N)
| VModel (m : ModelObj)
| VParam (p : Param)
| VConfig (cfg : LoraConfig).

(** The collaborators: the hub reached over the network, the training of
    the last cell, and the library calls of the training loops, whose
    outcome (a shape that does not fit, memory that runs out) the
    notebook does not decide.  Each call may fail; its outcome is a
    function of its arguments. *)
Record Hub := mkHub {
  tokenizer_from_pretrained : string → Outcome Tokenizer;
  model_from_pretrained : string → Outcome ModelObj;
  load_dataset : string → Outcome (list string);
  trainer_train : ModelObj → Outcome unit;
  (** [model(input_ids, attention_mask=..., labels=...)] *)
  model_forward : ModelObj → Tensor2 → Tensor2 → PyVal → Outcome unit;
  (** [loss.backward()], for the loss of that forward pass *)
  loss_backward : ModelObj → Tensor2 → Tensor2 → PyVal → Outcome unit;
  (** [optimizer.step()], for the optimiser of that model *)
  optimizer_step : ModelObj → Outcome unit
}.

(** The kernel state: the global namespace and the events so far. *)
Record State := mkState { globals : gmap string PyVal; trace : list Event }.

Definition initial : State := mkState ∅ [].

(** A statement or expression: it may change the state, and it returns
    a value or raises.  The state at a raise is the state reached. *)
Definition Exec (A : Type) : Type := State → State * Outcome A.

Definition exec_ret {A} (a : A) : Exec A := λ s, (s, Ok a).

Definition exec_bind {A B} (m : Exec A) (k : A → Exec B) : Exec B :=
  λ s, match m s with
       | (s', Ok a) => k a s'
       | (s', Raise e) => (s', Raise e)
       end.

Notation "x ←$ m ; k" := (exec_bind m (λ x, k))
  (at level 100, m at next level, right associativity, only parsing).
Notation "m ;$ k" := (exec_bind m (λ _, k))
  (at level 100, right associativity, only parsing).

Definition raise {A} (e : PyError) : Exec A := λ s, (s, Raise e).

Definition lift {A} (o : Outcome A) : Exec A := λ s, (s, o).

(** Reading a global name. *)
Definition read (x : string) : Exec PyVal :=
  λ s, (s, match globals s !! x with
           | Some v => Ok v
           | None => Raise (NameError x)
           end).

(** [x = v] *)
Definition assign (x : string) (v : PyVal) : Exec unit :=
  λ s, (mkState (<[x:=v]> (globals s)) (trace s), Ok tt).

Definition emit (e : Event) : Exec unit :=
  λ s, (mkState (globals s) (trace s ++ [e]), Ok tt).

(** The kinds of value the operations accept. *)
Definition as_int (v : PyVal) : Outcome Z :=
  match v with VInt n => Ok n | _ => Raise TypeError end.
Definition as_strs (v : PyVal) : Outcome (list string) :=
  match v with VStrList l => Ok l | _ => Raise TypeError end.
Definition as_ints (v : PyVal) : Outcome (list Z) :=
  match v with VIntList l => Ok l | _ => Raise TypeError end.
Definition as_tensor (v : PyVal) : Outcome Tensor2 :=
  match v with VTensor t => Ok t | _ => Raise TypeError end.
Definition as_encoding (v : PyVal) : Outcome BatchEncoding :=
  match v with VEncoding e => Ok e | _ => Raise TypeError end.
Definition as_tokenizer (v : PyVal) : Outcome Tokenizer :=
  match v with VTokenizer t => Ok t | _ => Raise TypeError end.
Definition as_model (v : PyVal) : Outcome ModelObj :=
  match v with VModel m => Ok m | _ => Raise TypeError end.
Definition as_config (v : PyVal) : Outcome LoraConfig :=
  match v with VConfig c => Ok c | _ => Raise TypeError end.
Definition as_linear (v : PyVal) : Outcome (N * N) :=
  match v with VLinear i o => Ok (i, o) | _ => Raise TypeError end.
Definition as_function (v : PyVal) : Outcome (Model → Outcome unit) :=
  match v with VFunction f => Ok f | _ => Raise TypeError end.

Definition read_as {A} (f : PyVal → Outcome A) (x : string) : Exec A :=
  v ←$ read x; lift (f v).

(** [import module as alias] *)
Definition import_as (module alias : string) : Exec unit :=
  assign alias (VModule module).

(** [from module import name, ...] *)
Fixpoint from_import (module : string) (names : list string) : Exec unit :=
  match names with
  | [] => exec_ret tt
  | x :: rest => assign x (VClass (module +:+ "." +:+ x)) ;$ from_import module rest
  end.

(** The integers a tensor of integers can hold. *)
Definition int64 (n : Z) : bool := (- 2 ^ 63 <=? n) && (n <? 2 ^ 63).

(** [torch.tensor(v)]: numbers and lists of numbers convert when they
    fit in 64 bits, a list holding strings does not. *)
Definition torch_tensor (v : PyVal) : Outcome PyVal :=
  match v with
  | VInt n => if int64 n then Ok (VTensor0 n) else Raise RuntimeError
  | VIntList l => if forallb int64 l then Ok (VTensor1 l) else Raise RuntimeError
  | VStrList [] => Ok (VTensor1 [])
  | VStrList (_ :: _) => Raise ValueError
  | VTensor0 n => Ok (VTensor0 n)
  | VTensor1 l => Ok (VTensor1 l)
  | VTensor t => Ok (VTensor t)
  | _ => Raise RuntimeError
  end.

(** [for var in range(stop): body] *)
Fixpoint for_range_from (i : Z) (n : nat) (var : string) (body : Exec unit) : Exec unit :=
  match n with
  | O => exec_ret tt
  | S n' => assign var (VInt i) ;$ body ;$ for_range_from (i + 1) n' var body
  end.

Definition for_range (stop : Z) (var : string) (body : Exec unit) : Exec unit :=
  for_range_from 0 (Z.to_nat stop) var body.

Section Cells.

Variable hub : Hub.

(** [tokenizer = cls.from_pretrained(name)] *)
Definition load_tokenizer (cls name : string) : Exec unit :=
  _ ←$ read cls;
  tok ←$ lift (tokenizer_from_pretrained hub name);
  assign "tokenizer" (VTokenizer tok).

(** [model = cls.from_pretrained(name, ...)] *)
Definition load_model (cls name : string) : Exec unit :=
  _ ←$ read cls;
  m ←$ lift (model_from_pretrained hub name);
  assign "model" (VModel m).

(** Standard fine-tuning, step 1. *)
Definition cell_load_distilbert : Exec unit :=
  from_import "transformers"
    ["DistilBertTokenizer"; "DistilBertForSequenceClassification"] ;$
  load_tokenizer "DistilBertTokenizer" "distilbert-base-uncased" ;$
  load_model "DistilBertForSequenceClassification" "distilbert-base-uncased".

(** Standard fine-tuning, step 2: the list literal bound to
    [sentiments] has no closing bracket, so the cell does not parse
    and none of its statements runs. *)
Definition cell_dataset : Exec unit := raise SyntaxError.

(** [encoded = tokenizer(var, padding=True, truncation=True, return_tensors='pt')] *)
Definition tokenize_into (encoded var : string) : Exec unit :=
  tok ←$ read_as as_tokenizer "tokenizer";
  texts ←$ read_as as_strs var;
  assign encoded (VEncoding (encode tok texts)).

(** [target = encoded['input_ids']] and [target = encoded['attention_mask']] *)
Definition extract_input_ids (target encoded : string) : Exec unit :=
  enc ←$ read_as as_encoding encoded;
  assign target (VTensor (input_ids enc)).

Definition extract_attention_mask (target encoded : string) : Exec unit :=
  enc ←$ read_as as_encoding encoded;
  assign target (VTensor (attention_mask enc)).

(** The first three statements of the encoding cell. *)
Definition encode_texts : Exec unit :=
  tokenize_into "encoded_texts" "texts" ;$
  extract_input_ids "input_ids" "encoded_texts" ;$
  extract_attention_mask "attention_mask" "encoded_texts".

(** Its last statement, the label comprehension. *)
Definition label_sentiments : Exec unit :=
  sentiments ←$ read_as as_strs "sentiments";
  labels ←$ lift (sentiment_labels sentiments);
  assign "sentiment_labels" (VIntList labels).

Definition cell_encode : Exec unit := encode_texts ;$ label_sentiments.

(** Standard fine-tuning, step 3:
<<
    import torch.nn as nn
    num_classes = len(set(sentiment_labels))
    classification_head = nn.Linear(model.config.hidden_size, num_classes)
    model.classifier = classification_head
>> *)
Definition set_classifier (m : ModelObj) (inp out : N) : ModelObj :=
  mkModel (hidden_size m)
    (filter (λ np, head (split_dots np.1) ≠ Some "classifier") (parameters m)
     ++ [ ("classifier.weight", mkParam [out; inp] true Float32);
          ("classifier.bias", mkParam [out] true Float32) ]).

Definition cell_head : Exec unit :=
  import_as "torch.nn" "nn" ;$
  labels ←$ read_as as_ints "sentiment_labels";
  assign "num_classes" (VInt (Z.of_nat (num_classes labels))) ;$
  _ ←$ read "nn";
  m ←$ read_as as_model "model";
  k ←$ read_as as_int "num_classes";
  assign "classification_head" (VLinear (hidden_size m) (Z.to_N k)) ;$
  hd ←$ read_as as_linear "classification_head";
  m ←$ read_as as_model "model";
  assign "model" (VModel (set_classifier m hd.1 hd.2)).

(** [import torch.optim as optim] and
    [optimizer = optim.AdamW(model.parameters(), lr=2e-5)] *)
Definition make_optimizer : Exec unit :=
  import_as "torch.optim" "optim" ;$
  _ ←$ read "optim";
  _ ←$ read_as as_model "model";
  assign "optimizer" (VObject "AdamW").

(** [criterion = scope.CrossEntropyLoss()], with [scope] the name the
    expression starts from ([nn] in the first loop, [torch] in the
    second). *)
Definition make_criterion (scope : string) : Exec unit :=
  _ ←$ read scope;
  assign "criterion" (VObject "CrossEntropyLoss").

(** Body of the training loop, with the name of the labels variable
    passed to [torch.tensor]:
<<
    optimizer.zero_grad()
    outputs = model(input_ids, attention_mask=attention_mask, labels=torch.tensor(labels))
    loss = outputs.loss
    loss.backward()
    optimizer.step()
>>
    The arguments of the model call are evaluated before the call.  The
    forward pass, the backward pass and the optimiser step are calls
    into the library: each may raise, and is recorded in the trace once
    it has returned. *)
Definition epoch_body (labels : string) : Exec unit :=
  _ ←$ read "optimizer";
  emit EZeroGrad ;$
  m ←$ read_as as_model "model";
  ids ←$ read_as as_tensor "input_ids";
  mask ←$ read_as as_tensor "attention_mask";
  _ ←$ read "torch";
  v ←$ read labels;
  t ←$ lift (torch_tensor v);
  lift (model_forward hub m ids mask t) ;$
  emit (EForward (nrows ids)) ;$
  assign "outputs" (VObject "SequenceClassifierOutput") ;$
  _ ←$ read "outputs";
  assign "loss" (VObject "loss") ;$
  _ ←$ read "loss";
  lift (loss_backward hub m ids mask t) ;$
  emit EBackward ;$
  _ ←$ read "optimizer";
  lift (optimizer_step hub m) ;$
  emit EStep.

(** [num_epochs = 3] and the loop [for epoch in range(num_epochs)]. *)
Definition train_loop (labels : string) : Exec unit :=
  assign "num_epochs" (VInt 3) ;$
  n ←$ read_as as_int "num_epochs";
  for_range n "epoch" (epoch_body labels).

(** Standard fine-tuning, step 4. *)
Definition cell_train : Exec unit :=
  make_optimizer ;$
  make_criterion "nn" ;$
  train_loop "sentiment_labels".

(** Instruction fine-tuning, step 1. *)
Definition cell_load_gpt2 : Exec unit :=
  from_import "transformers" ["GPT2Tokenizer"; "GPT2ForSequenceClassification"] ;$
  load_tokenizer "GPT2Tokenizer" "gpt2" ;$
  load_model "GPT2ForSequenceClassification" "gpt2".

(** Instruction fine-tuning, step 2: the three parallel lists. *)
Definition texts : list string :=
  ["I loved the movie. It was great!";
   "The food was terrible.";
   "The weather is okay."].

Definition sentiments : list string := ["positive"; "negative"; "neutral"].

Definition instructions : list string :=
  ["Analyze the sentiment of the text and identify if it is positive.";
   "Analyze the sentiment of the text and identify if it is negative.";
   "Analyze the sentiment of the text and identify if it is neutral."].

Definition cell_instruction_dataset : Exec unit :=
  assign "texts" (VStrList texts) ;$
  assign "sentiments" (VStrList sentiments) ;$
  assign "instructions" (VStrList instructions).

(** Instruction fine-tuning, tokenization of texts and instructions. *)
Definition cell_encode_instructions : Exec unit :=
  tokenize_into "encoded_texts" "texts" ;$
  tokenize_into "encoded_instructions" "instructions" ;$
  extract_input_ids "input_ids" "encoded_texts" ;$
  extract_attention_mask "attention_mask" "encoded_texts" ;$
  extract_input_ids "instruction_ids" "encoded_instructions".

(** Instruction fine-tuning, step 3:
<<
    import torch
    input_ids = torch.cat([instruction_ids, input_ids], dim=1)
    attention_mask = torch.cat([torch.ones_like(instruction_ids), attention_mask], dim=1)
>> *)
Definition cell_concat : Exec unit :=
  import_as "torch" "torch" ;$
  _ ←$ read "torch";
  instr ←$ read_as as_tensor "instruction_ids";
  ids ←$ read_as as_tensor "input_ids";
  joined ←$ lift (cat_dim1 [instr; ids]);
  assign "input_ids" (VTensor joined) ;$
  _ ←$ read "torch";
  instr ←$ read_as as_tensor "instruction_ids";
  mask ←$ read_as as_tensor "attention_mask";
  joined ←$ lift (cat_dim1 [ones_like instr; mask]);
  assign "attention_mask" (VTensor joined).

(** Instruction fine-tuning, step 4: as [cell_train], but the labels
    handed to [torch.tensor] are the strings of [sentiments]. *)
Definition cell_train_instructions : Exec unit :=
  make_optimizer ;$
  make_criterion "torch" ;$
  train_loop "sentiments".

(** PEFT, loading the model: the imports, then the model and the
    tokenizer from the hub.  The assignment to [os.environ] changes the
    process environment, not the namespace, and is left out. *)
Definition cell_load_opt : Exec unit :=
  import_as "os" "os" ;$
  import_as "torch" "torch" ;$
  import_as "torch.nn" "nn" ;$
  import_as "bitsandbytes" "bnb" ;$
  from_import "transformers" ["AutoTokenizer"; "AutoConfig"; "AutoModelForCausalLM"] ;$
  load_model "AutoModelForCausalLM" "facebook/opt-6.7b" ;$
  load_tokenizer "AutoTokenizer" "facebook/opt-6.7b".

(** One round of the freezing loop, on the parameter at position [i];
    the object is changed in place. *)
Definition set_param (i : nat) (name : string) (p : Param) : Exec unit :=
  m ←$ read_as as_model "model";
  assign "model" (VModel (mkModel (hidden_size m) (<[i := (name, p)]> (parameters m)))) ;$
  assign "param" (VParam p).

Definition freeze_at (i : nat) : Exec unit :=
  m ←$ read_as as_model "model";
  match parameters m !! i with
  | None => exec_ret tt
  | Some (name, p) =>
      set_param i name (mkParam (p_shape p) false (dtype p)) ;$
      if decide (ndim p = 1%nat)
      then _ ←$ read "torch"; set_param i name (mkParam (p_shape p) false Float32)
      else exec_ret tt
  end.

Fixpoint for_each (positions : list nat) (body : nat → Exec unit) : Exec unit :=
  match positions with
  | [] => exec_ret tt
  | i :: rest => body i ;$ for_each rest body
  end.

(** [model.lm_head = CastOutputToFloat(model.lm_head)]: the head becomes
    child [0] of an [nn.Sequential], so a parameter the head lists under
    [lm_head.] is from then on listed under [lm_head.0.]; a head whose
    weight is tied to the embedding lists none. *)
Definition wrap_head_name (name : string) : string :=
  match split_dots name with
  | first :: rest =>
      if decide (first = "lm_head") then join_dots ("lm_head" :: "0" :: rest)
      else name
  | [] => name
  end.

Definition wrap_head (m : Model) : Model := prod_map wrap_head_name id <$> m.

(** PEFT, post-processing: the freezing loop, the two calls that leave
    the parameters as they are, the class definition and the wrapping
    of the head (of a model that has an [lm_head], as the causal models
    of the hub do). *)
Definition cell_freeze : Exec unit :=
  m ←$ read_as as_model "model";
  for_each (seq 0 (length (parameters m))) freeze_at ;$
  _ ←$ read_as as_model "model";
  _ ←$ read_as as_model "model";
  _ ←$ read "nn";
  assign "CastOutputToFloat" (VClass "CastOutputToFloat") ;$
  _ ←$ read "CastOutputToFloat";
  _ ←$ read_as as_model "model";
  m ←$ read_as as_model "model";
  assign "model" (VModel (mkModel (hidden_size m) (wrap_head (parameters m)))).

(** PEFT, the definition of [print_trainable_parameters]: the string
    literal is broken over two lines, so the cell does not parse and
    the name is not bound. *)
Definition cell_def_print : Exec unit := raise SyntaxError.

(** PEFT, adapter injection and report.  The last statement calls
    whatever [print_trainable_parameters] is bound to; no cell binds
    it. *)
Definition cell_lora : Exec unit :=
  from_import "peft" ["LoraConfig"; "get_peft_model"] ;$
  _ ←$ read "LoraConfig";
  assign "config" (VConfig config) ;$
  _ ←$ read "get_peft_model";
  m ←$ read_as as_model "model";
  cfg ←$ read_as as_config "config";
  wrapped ←$ lift (get_peft_model (parameters m) cfg);
  assign "model" (VModel (mkModel (hidden_size m) wrapped)) ;$
  f ←$ read_as as_function "print_trainable_parameters";
  m ←$ read_as as_model "model";
  lift (f (parameters m)).

(** PEFT, training with the library's trainer. *)
Definition cell_trainer : Exec unit :=
  import_as "transformers" "transformers" ;$
  from_import "datasets" ["load_dataset"] ;$
  _ ←$ read "load_dataset";
  quotes ←$ lift (load_dataset hub "Abirate/english_quotes");
  assign "data" (VStrList quotes) ;$
  _ ←$ read "data";
  _ ←$ read_as as_tokenizer "tokenizer";
  assign "data" (VObject "DatasetDict") ;$
  _ ←$ read "transformers";
  _ ←$ read_as as_model "model";
  _ ←$ read "data";
  _ ←$ read "transformers";
  _ ←$ read "transformers";
  _ ←$ read_as as_tokenizer "tokenizer";
  assign "trainer" (VObject "Trainer") ;$
  _ ←$ read_as as_model "model";
  _ ←$ read "trainer";
  m ←$ read_as as_model "model";
  lift (trainer_train hub m) ;$
  emit ETrain.

(** The code cells, top to bottom. *)
Definition notebook : list (Exec unit) :=
  [ cell_load_distilbert; cell_dataset; cell_encode; cell_head; cell_train;
    cell_load_gpt2; cell_instruction_dataset; cell_encode_instructions;
    cell_concat; cell_train_instructions;
    cell_load_opt; cell_freeze; cell_def_print; cell_lora; cell_trainer ].

End Cells.

(** Running cells in order: the first cell that raises stops the run;
    the result names its position and the exception. *)
Fixpoint run_cells (cells : list (Exec unit)) (k : nat) (s : State)
    : State * option (nat * PyError) :=
  match cells with
  | [] => (s, None)
  | c :: rest =>
      match c s with
      | (s', Ok _) => run_cells rest (S k) s'
      | (s', Raise e) => (s', Some (k, e))
      end
  end.

(** How many forward, backward and optimiser steps a trace holds. *)
Definition is_forward (e : Event) : bool :=
  match e with EForward _ => true | _ => false end.
Definition is_backward (e : Event) : bool :=
  match e with EBackward => true | _ => false end.
Definition is_step (e : Event) : bool :=
  match e with EStep => true | _ => false end.

Definition count_events (f : Event → bool) (tr : list Event) : nat :=
  length (filter (λ e, f e = true) tr).

(** The events of one full epoch on a batch of [n] rows. *)
Definition cycle (n : nat) : list Event :=
  [EZeroGrad; EForward n; EBackward; EStep].


(** ** Sample collaborators *)

(** A tokenizer that gives every character its code. *)
Definition char_tokenizer : Tokenizer :=
  {| tokenize := λ s, (λ c, Z.of_nat (nat_of_ascii c)) <$> String.list_ascii_of_string s;
     pad_token_id := 0;
     model_max_length := 512 |}.

(** A hub that serves that tokenizer and a small model. *)
Definition sample_hub : Hub :=
  {| tokenizer_from_pretrained := λ _, Ok char_tokenizer;
     model_from_pretrained := λ _, Ok (mkModel 4 small_base);
     load_dataset := λ _, Ok ["Be yourself; everyone else is already taken."];
     trainer_train := λ _, Ok tt;
     model_forward := λ _ _ _ _, Ok tt;
     loss_backward := λ _ _ _ _, Ok tt;
     optimizer_step := λ _, Ok tt |}.


(** The state in which the second training loop starts when the cells of
    the instruction variant are run in order from an empty namespace. *)
Definition before_instruction_training : State :=
  (run_cells
     [ cell_load_gpt2 sample_hub; cell_instruction_dataset;
       cell_encode_instructions; cell_concat ] 0 initial).1.

End Notebook.
Import Notebook.

(** ** Frame conditions *)

(** A statement keeps a name when it leaves the binding of the name as
    it was, whether it returns or raises. *)
Definition keeps {A} (x : string) (m : Exec A) : Prop :=
  ∀ s, globals (m s).1 !! x = globals s !! x.

(** A statement is silent when it adds no event to the trace. *)
Definition silent {A} (m : Exec A) : Prop :=
  ∀ s, trace (m s).1 = trace s.

(** * Properties *)

(** ** Tensors: concatenation along dimension 1 *)

Lemma ones_like_rectangular t : rectangular (ones_like t).
Proof.
  unfold rectangular, ones_like; simpl.
  apply Forall_replicate. by rewrite length_replicate.
Qed.

Lemma ones_like_nrows t : nrows (ones_like t) = nrows t.
Proof. unfold ones_like, nrows; simpl. by rewrite length_replicate. Qed.

Lemma ones_like_shape t : shape (ones_like t) = shape t.
Proof. unfold shape. by rewrite ones_like_nrows. Qed.

Lemma hstack_ok a b :
  nrows a = nrows b →
  hstack a b = Ok (mkTensor (zip_with app (t_rows a) (t_rows b)) (t_cols a + t_cols b)).
Proof. intros H. unfold hstack. by rewrite decide_True. Qed.

Lemma hstack_mismatch a b : nrows a ≠ nrows b → hstack a b = Raise RuntimeError.
Proof. intros H. unfold hstack. by rewrite decide_False. Qed.

Lemma zip_app_rectangular (xs ys : list (list Z)) n m :
  Forall (λ r, length r = n) xs →
  Forall (λ r, length r = m) ys →
  Forall (λ r, length r = (n + m)%nat) (zip_with app xs ys).
Proof.
  intros Hx. revert ys. induction Hx as [|x xs Hlen _ IH]; intros ys Hy.
  - constructor.
  - destruct Hy as [|y ys Hy1 Hy2]; simpl; constructor.
    + rewrite length_app. lia.
    + by apply IH.
Qed.

Lemma zip_app_lookup (xs ys : list (list Z)) i rx ry :
  xs !! i = Some rx → ys !! i = Some ry →
  zip_with app xs ys !! i = Some (rx ++ ry).
Proof.
  intros Hx Hy. apply lookup_zip_with_Some. by exists rx, ry.
Qed.

Lemma zip_app_length (xs ys : list (list Z)) :
  length xs = length ys → length (zip_with app xs ys) = length ys.
Proof. intros H. rewrite length_zip_with. lia. Qed.

Lemma rectangular_lookup t i row :
  rectangular t → t_rows t !! i = Some row → length row = t_cols t.
Proof. intros H Hi. exact (proj1 (Forall_lookup _ _) H i row Hi). Qed.

Lemma row_exists t i : (i < nrows t)%nat → ∃ row, t_rows t !! i = Some row.
Proof. intros H. by apply lookup_lt_is_Some_2. Qed.

(** The two concatenations of the cell succeed as soon as the three
    tensors have the same number of rows, and this is what they return. *)
Lemma concat_instructions_ok instr ids mask :
  nrows instr = nrows ids → nrows mask = nrows ids →
  concat_instructions instr ids mask =
    Ok (mkTensor (zip_with app (t_rows instr) (t_rows ids)) (t_cols instr + t_cols ids),
        mkTensor (zip_with app (t_rows (ones_like instr)) (t_rows mask))
                 (t_cols instr + t_cols mask)).
Proof.
  intros H1 H2. unfold concat_instructions; simpl.
  rewrite hstack_ok by done. simpl.
  rewrite hstack_ok by (rewrite ones_like_nrows; congruence).
  done.
Qed.

(** With another number of instruction rows the first concatenation
    raises. *)
Lemma concat_instructions_mismatch instr ids mask :
  nrows instr ≠ nrows ids →
  concat_instructions instr ids mask = Raise RuntimeError.
Proof.
  intros H. unfold concat_instructions; simpl. by rewrite hstack_mismatch.
Qed.

(** C5: for tensors of [N] rows each, the cell's concatenation along
    dimension 1 returns input ids and a mask of shape
    [N x (instruction length + text length)]; row by row, the new input
    sequence is the instruction row followed by the text row, so its
    length is the sum of the two lengths, and the adjusted mask row has
    that same length. *)
Theorem concat_instructions_length instr ids mask :
  rectangular instr → rectangular ids → rectangular mask →
  nrows instr = nrows ids → shape mask = shape ids →
  ∃ ids' mask',
    concat_instructions instr ids mask = Ok (ids', mask') ∧
    rectangular ids' ∧ rectangular mask' ∧
    shape ids' = (nrows ids, (t_cols instr + t_cols ids)%nat) ∧
    shape mask' = shape ids' ∧
    ∀ i, (i < nrows ids)%nat →
      ∃ ri rt row mrow,
        t_rows instr !! i = Some ri ∧ t_rows ids !! i = Some rt ∧
        t_rows ids' !! i = Some row ∧ t_rows mask' !! i = Some mrow ∧
        row = ri ++ rt ∧
        length row = (length ri + length rt)%nat ∧
        length mrow = length row.
Proof.
  intros Ri Rt Rm Hn Hs.
  injection Hs as Hmn Hmc.
  eexists _, _. split; [by apply concat_instructions_ok|].
  assert (Hones : length (t_rows (ones_like instr)) = length (t_rows mask)).
  { fold (nrows (ones_like instr)). rewrite ones_like_nrows. unfold nrows in *. lia. }
  repeat split; simpl.
  - by apply zip_app_rectangular.
  - apply zip_app_rectangular; [apply ones_like_rectangular | done].
  - unfold shape, nrows; simpl. f_equal. by apply zip_app_length.
  - unfold shape, nrows; simpl.
    rewrite !zip_app_length by done.
    unfold nrows in *. f_equal; lia.
  - intros i Hi.
    destruct (row_exists instr i) as [ri Hri]; [lia|].
    destruct (row_exists ids i) as [rt Hrt]; [done|].
    destruct (row_exists mask i) as [rm Hrm]; [lia|].
    destruct (row_exists (ones_like instr) i) as [ro Hro];
      [rewrite ones_like_nrows; lia|].
    exists ri, rt, (ri ++ rt), (ro ++ rm).
    repeat split; try done.
    + by apply zip_app_lookup.
    + by apply zip_app_lookup.
    + by rewrite length_app.
    + rewrite !length_app.
      rewrite (rectangular_lookup _ _ _ (ones_like_rectangular instr) Hro).
      rewrite (rectangular_lookup _ _ _ Ri Hri).
      rewrite (rectangular_lookup _ _ _ Rt Hrt).
      rewrite (rectangular_lookup _ _ _ Rm Hrm).
      simpl. lia.
Qed.

(** ** The tokenizer call *)

Lemma truncate_length tok s : (length (truncate tok s) ≤ model_max_length tok)%nat.
Proof. unfold truncate. rewrite length_take. lia. Qed.

Lemma pad_row_length L pad q : (length q ≤ L)%nat → length (pad_row L pad q) = L.
Proof.
  intros H. unfold pad_row. rewrite length_app, length_replicate. lia.
Qed.

Lemma mask_row_length L q : (length q ≤ L)%nat → length (mask_row L q) = L.
Proof.
  intros H. unfold mask_row. rewrite length_app, !length_replicate. lia.
Qed.

Lemma longest_bound (seqs : list (list Z)) q :
  q ∈ seqs → (length q ≤ max_list (length <$> seqs))%nat.
Proof.
  intros H. apply max_list_elem_of_le. by apply list_elem_of_fmap_2.
Qed.

Lemma longest_truncated tok texts :
  (max_list (length <$> (truncate tok <$> texts)) ≤ model_max_length tok)%nat.
Proof.
  induction texts as [|s texts IH]; csimpl; [lia|].
  pose proof (truncate_length tok s). lia.
Qed.

(** C1: for every tokenizer and every list of [N] strings the encoding
    step returns token ids and an attention mask that are both
    rectangular of shape [N x L] for one and the same [L], the length of
    the longest (truncated) sample; each row is the sample's ids followed
    by padding, and its mask row marks exactly the sample's positions. *)
Theorem encode_shape tok (texts : list string) :
  ∃ L : nat,
    L = max_list (length <$> (truncate tok <$> texts)) ∧
    (L ≤ model_max_length tok)%nat ∧
    shape (input_ids (encode tok texts)) = (length texts, L) ∧
    shape (attention_mask (encode tok texts)) = (length texts, L) ∧
    rectangular (input_ids (encode tok texts)) ∧
    rectangular (attention_mask (encode tok texts)) ∧
    ∀ i s, texts !! i = Some s →
      let q := truncate tok s in
      t_rows (input_ids (encode tok texts)) !! i
        = Some (q ++ replicate (L - length q) (pad_token_id tok)) ∧
      t_rows (attention_mask (encode tok texts)) !! i
        = Some (replicate (length q) 1 ++ replicate (L - length q) 0).
Proof.
  eexists. split; [reflexivity|].
  split; [apply longest_truncated|].
  unfold encode, shape, nrows, rectangular; simpl.
  rewrite !length_fmap.
  repeat split.
  - apply Forall_fmap, Forall_forall. intros q Hq; simpl.
    apply pad_row_length. by apply longest_bound.
  - apply Forall_fmap, Forall_forall. intros q Hq; simpl.
    apply mask_row_length. by apply longest_bound.
  - rewrite !list_lookup_fmap, H. done.
  - rewrite !list_lookup_fmap, H. done.
Qed.

(** ** Labels *)

Lemma obind_ok {A B} (m : Outcome A) (k : A → Outcome B) b :
  obind m k = Ok b ↔ ∃ a, m = Ok a ∧ k a = Ok b.
Proof.
  destruct m as [a|e]; simpl; split.
  - intros H. by exists a.
  - by intros (a' & [= ->] & H).
  - done.
  - by intros (a' & [=] & _).
Qed.

(** [index] returns a position that holds the element looked for. *)
Lemma index_position l x k :
  index l x = Ok k → 0 ≤ k ∧ l !! Z.to_nat k = Some x.
Proof.
  revert k. induction l as [|y l IH]; intros k; simpl; [done|].
  destruct (decide (y = x)) as [->|Hne].
  - intros [= <-]. done.
  - rewrite obind_ok. intros (i & Hi & [= <-]).
    destruct (IH i Hi) as [Hge Hl]. split; [lia|].
    replace (Z.to_nat (1 + i)) with (S (Z.to_nat i)) by lia. done.
Qed.

(** It succeeds on every element of the list, and only on those. *)
Lemma index_elem l x : x ∈ l → ∃ k, index l x = Ok k.
Proof.
  induction l as [|y l IH]; simpl.
  - by intros ?%elem_of_nil.
  - intros Hx. destruct (decide (y = x)) as [->|Hne]; [by eexists|].
    apply elem_of_cons in Hx as [->|Hx]; [done|].
    destruct (IH Hx) as [k ->]. by eexists.
Qed.

Lemma index_missing l x : x ∉ l → index l x = Raise ValueError.
Proof.
  induction l as [|y l IH]; simpl; [done|].
  intros Hx. apply not_elem_of_cons in Hx as [Hne Hx].
  rewrite decide_False by done. by rewrite IH.
Qed.

(** Two strings with the same index are the same string. *)
Lemma index_inj l x y k : index l x = Ok k → index l y = Ok k → x = y.
Proof.
  intros [_ Hx]%index_position [_ Hy]%index_position. congruence.
Qed.

Lemma comprehension_ok {A B} (f : A → Outcome B) l ys :
  comprehension f l = Ok ys ↔ Forall2 (λ x y, f x = Ok y) l ys.
Proof.
  revert ys. induction l as [|x l IH]; intros ys; simpl.
  - split; [intros [= <-]; constructor | by intros ->%Forall2_nil_inv_l].
  - rewrite obind_ok. split.
    + intros (y & Hy & H). apply obind_ok in H as (ys' & Hys & [= <-]).
      constructor; [done | by apply IH].
    + intros (y & ys' & Hy & Hys & ->)%Forall2_cons_inv_l.
      exists y. split; [done|]. apply obind_ok. exists ys'.
      split; [by apply IH | done].
Qed.

Lemma comprehension_total {A B} (f : A → Outcome B) l :
  Forall (λ x, ∃ y, f x = Ok y) l → ∃ ys, comprehension f l = Ok ys.
Proof.
  induction 1 as [|x l [y Hy] _ [ys Hys]]; simpl; [by eexists|].
  rewrite Hy; simpl. rewrite Hys; simpl. by eexists.
Qed.

(** The comprehension never raises: it only looks up members. *)
Lemma sentiment_labels_total sentiments :
  ∃ labels, sentiment_labels sentiments = Ok labels.
Proof.
  apply comprehension_total, Forall_forall. intros s Hs. by apply index_elem.
Qed.

Lemma sentiment_labels_fmap sentiments labels :
  sentiment_labels sentiments = Ok labels →
  labels = index_of sentiments <$> sentiments.
Proof.
  unfold sentiment_labels. generalize sentiments at 1 3 as l.
  intros l H. apply comprehension_ok in H.
  induction H as [|x y xs ys Hxy _ IH]; [done|].
  csimpl. unfold index_of at 1. rewrite Hxy. by f_equal.
Qed.

Lemma index_of_inj_on l x y :
  x ∈ l → y ∈ l → index_of l x = index_of l y → x = y.
Proof.
  intros [kx Hx]%index_elem [ky Hy]%index_elem. unfold index_of.
  rewrite Hx, Hy. intros ->. by eapply index_inj.
Qed.

(** Distinct labels and distinct indices are equally many. *)
Lemma num_classes_distinct sentiments labels :
  sentiment_labels sentiments = Ok labels →
  num_classes labels = size (label_set sentiments).
Proof.
  intros ->%sentiment_labels_fmap. unfold num_classes, label_set.
  set (X := list_to_set sentiments : gset string).
  assert (HX : ∀ s, s ∈ elements X ↔ s ∈ sentiments).
  { intros s. rewrite elem_of_elements. unfold X. apply elem_of_list_to_set. }
  transitivity (size (list_to_set (index_of sentiments <$> elements X) : gset Z)).
  - f_equal. apply set_eq. intros k.
    rewrite !elem_of_list_to_set, !list_elem_of_fmap.
    split; intros (s & -> & Hs); exists s; (split; [done|]); by apply HX.
  - rewrite size_list_to_set.
    + rewrite length_fmap. done.
    + apply NoDup_fmap_2_strong; [|apply NoDup_elements].
      intros x y Hx%HX Hy%HX. by apply index_of_inj_on.
Qed.

(** C3: the comprehension never raises; it gives every sample the index
    of its label; on the distinct labels of the sample list the map from
    a label to its index is one-to-one, and it is onto the set of computed
    indices; so [num_classes] is the number of distinct labels. *)
Theorem label_index_bijection (sentiments : list string) :
  ∃ labels,
    sentiment_labels sentiments = Ok labels ∧
    length labels = length sentiments ∧
    (∀ i s, sentiments !! i = Some s →
       ∃ k, index sentiments s = Ok k ∧ labels !! i = Some k) ∧
    (∀ s, s ∈ label_set sentiments →
       ∃ k, index sentiments s = Ok k ∧ k ∈ (list_to_set labels : gset Z)) ∧
    (∀ s1 s2 k, s1 ∈ label_set sentiments → s2 ∈ label_set sentiments →
       index sentiments s1 = Ok k → index sentiments s2 = Ok k → s1 = s2) ∧
    (∀ k, k ∈ (list_to_set labels : gset Z) →
       ∃ s, s ∈ label_set sentiments ∧ index sentiments s = Ok k) ∧
    num_classes labels = size (label_set sentiments).
Proof.
  destruct (sentiment_labels_total sentiments) as [labels Hl].
  exists labels. split; [done|].
  pose proof (sentiment_labels_fmap _ _ Hl) as Hmap.
  assert (Hidx : ∀ s, s ∈ sentiments → index sentiments s = Ok (index_of sentiments s)).
  { intros s [k Hk]%index_elem. unfold index_of. by rewrite Hk. }
  unfold label_set. repeat split.
  - rewrite Hmap. by rewrite length_fmap.
  - intros i s Hi. exists (index_of sentiments s). split.
    + apply Hidx. by eapply list_elem_of_lookup_2.
    + rewrite Hmap, list_lookup_fmap, Hi. done.
  - intros s Hs%elem_of_list_to_set. exists (index_of sentiments s).
    split; [by apply Hidx|].
    rewrite Hmap. apply elem_of_list_to_set, list_elem_of_fmap. by exists s.
  - intros s1 s2 k _ _. apply index_inj.
  - intros k Hk%elem_of_list_to_set. rewrite Hmap in Hk.
    apply list_elem_of_fmap in Hk as (s & -> & Hs).
    exists s. split; [by apply elem_of_list_to_set | by apply Hidx].
  - by apply num_classes_distinct.
Qed.

(** ** Counting parameters *)

Lemma count_step_sums t a np :
  count_step (t, a) np =
    ((if requires_grad np.2 then t + numel np.2 else t)%N, (a + numel np.2)%N).
Proof. done. Qed.

(** The loop adds to whatever the two counters hold at its start. *)
Lemma count_loop_sums m t a :
  foldl count_step (t, a) m = ((t + sum_trainable m)%N, (a + sum_numel m)%N).
Proof.
  revert t a. induction m as [|np m IH]; intros t a; simpl.
  - f_equal; lia.
  - rewrite IH. destruct (requires_grad np.2); f_equal; lia.
Qed.

Lemma count_parameters_sums m :
  count_parameters m = (sum_trainable m, sum_numel m).
Proof. unfold count_parameters. rewrite count_loop_sums. f_equal; lia. Qed.

Lemma sum_trainable_le m : (sum_trainable m ≤ sum_numel m)%N.
Proof.
  induction m as [|np m IH]; simpl; [done|].
  destruct (requires_grad np.2); lia.
Qed.

Lemma sum_numel_app m1 m2 : sum_numel (m1 ++ m2) = (sum_numel m1 + sum_numel m2)%N.
Proof. induction m1 as [|np m1 IH]; simpl; [done|]. rewrite IH. lia. Qed.

Lemma sum_trainable_app m1 m2 :
  sum_trainable (m1 ++ m2) = (sum_trainable m1 + sum_trainable m2)%N.
Proof.
  induction m1 as [|np m1 IH]; simpl; [done|].
  rewrite IH. destruct (requires_grad np.2); lia.
Qed.

Lemma sum_trainable_frozen m : frozen m → sum_trainable m = 0%N.
Proof. induction 1 as [|np m Hnp _ IH]; simpl; [done|]. by rewrite Hnp. Qed.

(** C9: for every model the counting loop of
    [print_trainable_parameters] ends with
    [trainable_params <= all_param]: [all_param] is the sum of the element
    counts of all parameters and [trainable_params] the sum over those
    with [requires_grad] set. *)
Theorem trainable_le_all (m : Model) :
  (count_parameters m).2 = sum_numel m ∧
  (count_parameters m).1 = sum_trainable m ∧
  ((count_parameters m).1 ≤ (count_parameters m).2)%N.
Proof.
  rewrite count_parameters_sums; simpl.
  repeat split. apply sum_trainable_le.
Qed.

(** ** Freezing and adapter injection *)

Lemma freeze_model_frozen m : frozen (freeze_model m).
Proof. unfold frozen, freeze_model. apply Forall_fmap, Forall_forall. by intros [n p] _. Qed.

Lemma freeze_model_numel m : sum_numel (freeze_model m) = sum_numel m.
Proof. induction m as [|[n p] m IH]; simpl; [done|]. by rewrite IH. Qed.

Lemma freeze_model_length m : length (freeze_model m) = length m.
Proof. unfold freeze_model. by rewrite length_fmap. Qed.

(** The added matrices are all trainable. *)
Lemma adapters_trainable cfg np :
  sum_trainable (adapters cfg np) = sum_numel (adapters cfg np).
Proof.
  unfold adapters.
  destruct (targeted_module cfg np.1) as [path|]; [|done].
  destruct (p_shape np.2) as [|out [|inp [|? ?]]]; done.
Qed.

(** Element counts of the wrapped model: the originals count only in the
    total, the added matrices in both. *)
Lemma wrapped_sums cfg (m : Model) :
  let wrapped := m ≫= λ np, (np.1, original np.2) :: adapters cfg np in
  sum_numel wrapped = (sum_numel m + sum_numel (m ≫= adapters cfg))%N ∧
  sum_trainable wrapped = sum_numel (m ≫= adapters cfg).
Proof.
  induction m as [|np m [IH1 IH2]]; [done|].
  csimpl in *. rewrite !sum_numel_app, sum_trainable_app, IH1, IH2.
  rewrite adapters_trainable.
  change (numel (original np.2)) with (numel np.2).
  split; lia.
Qed.

Lemma get_peft_model_ok m cfg wrapped :
  get_peft_model m cfg = Ok wrapped →
  m ≫= adapters cfg ≠ [] ∧
  wrapped = (m ≫= λ np, (np.1, original np.2) :: adapters cfg np).
Proof.
  unfold get_peft_model. destruct (decide (m ≫= adapters cfg = [])); [done|].
  by intros [= <-].
Qed.

(** Whatever the base model, the counts after injection differ by the
    element count of the base model. *)
Lemma get_peft_model_counts m cfg wrapped :
  get_peft_model m cfg = Ok wrapped →
  (count_parameters wrapped).2 = ((count_parameters wrapped).1 + sum_numel m)%N.
Proof.
  intros [_ ->]%get_peft_model_ok.
  rewrite count_parameters_sums; simpl.
  destruct (wrapped_sums cfg m) as [-> ->]. lia.
Qed.

(** C4, as the code has it: after adapter injection onto a frozen base
    model the trainable count is strictly less than the total count when
    the base model holds at least one parameter element; the two counts
    differ by exactly the element count of the base model. *)
Theorem lora_trainable_lt_all (base : Model) cfg (wrapped : Model) :
  frozen base →
  get_peft_model base cfg = Ok wrapped →
  (0 < sum_numel base)%N →
  ((count_parameters wrapped).1 < (count_parameters wrapped).2)%N ∧
  (count_parameters wrapped).2 = ((count_parameters wrapped).1 + sum_numel base)%N.
Proof.
  intros _ Hw Hpos. pose proof (get_peft_model_counts _ _ _ Hw) as H.
  split; [lia | done].
Qed.

Lemma lora_trainable_lt_all_witness :
  frozen (freeze_model small_base) ∧
  get_peft_model (freeze_model small_base) config =
    Ok [ ("model.decoder.embed_tokens.weight", mkParam [10%N; 4%N] false Float16);
         ("model.decoder.layers.0.self_attn.q_proj.weight", mkParam [4%N; 4%N] false Int8);
         ("model.decoder.layers.0.self_attn.q_proj.lora_A.weight", mkParam [16%N; 4%N] true Float32);
         ("model.decoder.layers.0.self_attn.q_proj.lora_B.weight", mkParam [4%N; 16%N] true Float32);
         ("model.decoder.layers.0.self_attn.q_proj.bias", mkParam [4%N] false Float32) ] ∧
  count_parameters
    [ ("model.decoder.embed_tokens.weight", mkParam [10%N; 4%N] false Float16);
      ("model.decoder.layers.0.self_attn.q_proj.weight", mkParam [4%N; 4%N] false Int8);
      ("model.decoder.layers.0.self_attn.q_proj.lora_A.weight", mkParam [16%N; 4%N] true Float32);
      ("model.decoder.layers.0.self_attn.q_proj.lora_B.weight", mkParam [4%N; 16%N] true Float32);
      ("model.decoder.layers.0.self_attn.q_proj.bias", mkParam [4%N] false Float32) ]
    = (128%N, 188%N) ∧
  (128 < 188)%N.
Proof.
  assert (Hw : get_peft_model (freeze_model small_base) config =
    Ok [ ("model.decoder.embed_tokens.weight", mkParam [10%N; 4%N] false Float16);
         ("model.decoder.layers.0.self_attn.q_proj.weight", mkParam [4%N; 4%N] false Int8);
         ("model.decoder.layers.0.self_attn.q_proj.lora_A.weight", mkParam [16%N; 4%N] true Float32);
         ("model.decoder.layers.0.self_attn.q_proj.lora_B.weight", mkParam [4%N; 16%N] true Float32);
         ("model.decoder.layers.0.self_attn.q_proj.bias", mkParam [4%N] false Float32) ])
    by (vm_compute; reflexivity).
  split; [apply freeze_model_frozen|].
  split; [exact Hw|].
  split; [vm_compute; reflexivity|].
  exact (proj1 (lora_trainable_lt_all _ _ _
                  (freeze_model_frozen small_base) Hw eq_refl)).
Defined.

(** C4 as stated fails on a frozen base model without any parameter
    element: injection succeeds, and both counts are zero. *)
Lemma lora_counts_equal_on_degenerate_base :
  frozen degenerate_base ∧
  ∃ wrapped,
    get_peft_model degenerate_base config = Ok wrapped ∧
    count_parameters wrapped = (0%N, 0%N) ∧
    ¬ ((count_parameters wrapped).1 < (count_parameters wrapped).2)%N.
Proof.
  split; [by repeat constructor|].
  eexists. split; [vm_compute; reflexivity|].
  split; [vm_compute; reflexivity|].
  vm_compute. by intros [=].
Qed.

(** ** Running statements and cells *)

Ltac exec_unfold :=
  cbv beta iota zeta delta
    [exec_bind read_as read lift assign emit raise exec_ret
     as_int as_strs as_ints as_tensor as_encoding as_tokenizer as_model
     as_config as_linear as_function];
  cbn [globals trace].

Ltac exec_step :=
  first
    [ rewrite lookup_insert_eq
    | rewrite lookup_insert_ne by done
    | match goal with
      | H : ?g !! ?x = _ |- context [?g !! ?x] => rewrite H
      | H : ?o = Ok _ |- context [?o] => rewrite H
      | H : ?o = Raise _ |- context [?o] => rewrite H
      end ].

Ltac exec_run := repeat (progress exec_unfold || exec_step).

(** A statement that raises ends the sequence it is part of: what
    follows is not run, and the state is the one the raise left. *)
Lemma exec_bind_raise {A B} (m : Exec A) (k : A → Exec B) s s' e :
  m s = (s', Raise e) → exec_bind m k s = (s', Raise e).
Proof. intros H. unfold exec_bind. by rewrite H. Qed.

Lemma exec_bind_ok {A B} (m : Exec A) (k : A → Exec B) s s' a :
  m s = (s', Ok a) → exec_bind m k s = k a s'.
Proof. intros H. unfold exec_bind. by rewrite H. Qed.

(** A round of a [for] loop that raises ends the loop. *)
Lemma for_range_raise i n var body s s' e :
  (assign var (VInt i) ;$ body) s = (s', Raise e) →
  for_range_from i (S n) var body s = (s', Raise e).
Proof.
  intros H. simpl. unfold exec_bind in *. simpl in *.
  destruct (body _) as [s1 [[]|e1]]; [done|]. done.
Qed.


(** The cells before the failing one are the only ones that ran. *)
Lemma run_cells_app_ok before after k s s1 :
  run_cells before k s = (s1, None) →
  run_cells (before ++ after) k s = run_cells after (k + length before)%nat s1.
Proof.
  revert k s. induction before as [|b before IH]; intros k s; simpl.
  - intros [= ->]. f_equal. lia.
  - destruct (b s) as [s2 [[]|e2]]; [|done].
    intros Hb. rewrite (IH _ _ Hb). f_equal. lia.
Qed.

(** ** The training loops *)




Lemma count_events_app f tr1 tr2 :
  count_events f (tr1 ++ tr2) = (count_events f tr1 + count_events f tr2)%nat.
Proof. unfold count_events. by rewrite filter_app, length_app. Qed.

Lemma count_events_cycles n E :
  count_events is_forward (mjoin (replicate E (cycle n))) = E ∧
  count_events is_backward (mjoin (replicate E (cycle n))) = E ∧
  count_events is_step (mjoin (replicate E (cycle n))) = E.
Proof.
  induction E as [|E (IH1 & IH2 & IH3)]; [done|].
  change (mjoin (replicate (S E) (cycle n)))
    with (cycle n ++ mjoin (replicate E (cycle n))).
  rewrite !count_events_app, IH1, IH2, IH3. done.
Qed.



(** The labels that do not convert end it before the forward pass. *)
Lemma cell_train_labels_raise hub s m ids mask tor nn v e :
  globals s !! "model" = Some (VModel m) →
  globals s !! "input_ids" = Some (VTensor ids) →
  globals s !! "attention_mask" = Some (VTensor mask) →
  globals s !! "torch" = Some tor →
  globals s !! "nn" = Some nn →
  globals s !! "sentiment_labels" = Some v →
  torch_tensor v = Raise e →
  ∃ s', cell_train hub s = (s', Raise e) ∧
        trace s' = trace s ++ [EZeroGrad].
Proof.
  destruct s as [g tr]; simpl. intros Hm Hi Ha Ht Hn Hl Hv.
  unfold cell_train, make_optimizer, make_criterion, train_loop, import_as.
  exec_run. unfold for_range. simpl Z.to_nat.
  eexists. split.
  - apply for_range_raise. unfold epoch_body. exec_run. reflexivity.
  - done.
Qed.

(** The second loop hands the strings of [sentiments] to [torch.tensor]:
    where the other names are bound, the first epoch raises [ValueError]
    after [zero_grad], before any forward pass. *)
Lemma cell_train_instructions_raises hub s m ids mask tor x l :
  globals s !! "model" = Some (VModel m) →
  globals s !! "input_ids" = Some (VTensor ids) →
  globals s !! "attention_mask" = Some (VTensor mask) →
  globals s !! "torch" = Some tor →
  globals s !! "sentiments" = Some (VStrList (x :: l)) →
  ∃ s', cell_train_instructions hub s = (s', Raise ValueError) ∧
        trace s' = trace s ++ [EZeroGrad].
Proof.
  destruct s as [g tr]; simpl. intros Hm Hi Ha Ht Hl.
  unfold cell_train_instructions, make_optimizer, make_criterion, train_loop, import_as.
  exec_run. unfold for_range. simpl Z.to_nat.
  eexists. split.
  - apply for_range_raise. unfold epoch_body. exec_run. reflexivity.
  - done.
Qed.

Ltac halted := eexists _, _; split; [reflexivity|]; simpl; auto.

(** Building the optimiser and the loss touches neither the trace nor
    [sentiments]. *)
Lemma make_optimizer_quiet s :
  trace (make_optimizer s).1 = trace s ∧
  globals (make_optimizer s).1 !! "sentiments" = globals s !! "sentiments".
Proof.
  destruct s as [g tr]. unfold make_optimizer, import_as.
  destruct (g !! "model") as [vm|] eqn:Hm; [destruct vm|];
    exec_run; simpl; by repeat exec_step.
Qed.

Lemma make_criterion_quiet scope s :
  trace (make_criterion scope s).1 = trace s ∧
  globals (make_criterion scope s).1 !! "sentiments" = globals s !! "sentiments".
Proof.
  destruct s as [g tr]. unfold make_criterion.
  destruct (g !! scope) as [v|] eqn:Hv; exec_run; simpl; [|done].
  split; [done|]. by rewrite lookup_insert_ne.
Qed.

(** A round of the second loop raises, at the latest when the strings
    reach [torch.tensor]; only [zero_grad] may have run. *)
Lemma epoch_body_sentiments_raises hub s x l :
  globals s !! "sentiments" = Some (VStrList (x :: l)) →
  ∃ s' e, epoch_body hub "sentiments" s = (s', Raise e) ∧
          (trace s' = trace s ∨ trace s' = trace s ++ [EZeroGrad]).
Proof.
  destruct s as [g tr]; simpl. intros Hl. unfold epoch_body.
  destruct (g !! "optimizer") as [vo|] eqn:Ho; [|exec_run; halted].
  destruct (g !! "model") as [vm|] eqn:Hm; [|exec_run; halted].
  destruct vm; try (exec_run; halted).
  destruct (g !! "input_ids") as [vi|] eqn:Hi; [|exec_run; halted].
  destruct vi; try (exec_run; halted).
  destruct (g !! "attention_mask") as [va|] eqn:Ha; [|exec_run; halted].
  destruct va; try (exec_run; halted).
  destruct (g !! "torch") as [vt|] eqn:Ht; exec_run; halted.
Qed.

Lemma train_loop_sentiments_raises hub s x l :
  globals s !! "sentiments" = Some (VStrList (x :: l)) →
  ∃ s' e, train_loop hub "sentiments" s = (s', Raise e) ∧
          (trace s' = trace s ∨ trace s' = trace s ++ [EZeroGrad]).
Proof.
  destruct s as [g tr]; simpl. intros Hl.
  unfold train_loop. exec_run.
  unfold for_range. change (Z.to_nat 3) with 3%nat.
  match goal with
  | |- context [for_range_from 0 3 _ _ ?s0] =>
      destruct (epoch_body_sentiments_raises hub (assign "epoch" (VInt 0) s0).1 x l)
        as (s' & e & Hb & Htr)
  end.
  { simpl. by rewrite !lookup_insert_ne. }
  exists s', e. split; [|exact Htr].
  apply for_range_raise. erewrite exec_bind_ok; [|reflexivity]. exact Hb.
Qed.

(** Whatever else the state holds and whatever the library calls would
    answer, the second loop raises in its first epoch and adds no forward
    pass, backward pass or optimiser step. *)
Lemma cell_train_instructions_never_trains hub s x l :
  globals s !! "sentiments" = Some (VStrList (x :: l)) →
  ∃ s' e, cell_train_instructions hub s = (s', Raise e) ∧
          (trace s' = trace s ∨ trace s' = trace s ++ [EZeroGrad]).
Proof.
  intros Hl. unfold cell_train_instructions.
  destruct (make_optimizer_quiet s) as [Ht1 Hg1].
  destruct (make_optimizer s) as [s1 [[]|e1]] eqn:H1; simpl in *.
  2:{ exists s1, e1. split; [by apply exec_bind_raise | by left]. }
  erewrite exec_bind_ok; [|exact H1].
  destruct (make_criterion_quiet "torch" s1) as [Ht2 Hg2].
  destruct (make_criterion "torch" s1) as [s2 [[]|e2]] eqn:H2; simpl in *.
  2:{ exists s2, e2. split; [by apply exec_bind_raise | left; congruence]. }
  erewrite exec_bind_ok; [|exact H2].
  destruct (train_loop_sentiments_raises hub s2 x l) as (s' & e & Hrun & Htr);
    [congruence|].
  exists s', e. split; [done|]. rewrite Ht2, Ht1 in Htr. done.
Qed.

(** C2, on the code: started from the state the instruction variant's
    own cells build, the second training loop raises [ValueError] in its
    first epoch, after [zero_grad] and before the forward pass, whatever
    the library calls would answer; it performs no forward, backward or
    optimiser step instead of three. *)
Theorem instruction_training_runs_no_cycle hub :
  (run_cells
     [ cell_load_gpt2 sample_hub; cell_instruction_dataset;
       cell_encode_instructions; cell_concat ] 0 initial).2 = None ∧
  globals before_instruction_training !! "sentiments"
    = Some (VStrList ["positive"; "negative"; "neutral"]) ∧
  (cell_train_instructions hub before_instruction_training).2 = Raise ValueError ∧
  trace (cell_train_instructions hub before_instruction_training).1 = [EZeroGrad] ∧
  count_events is_forward
    (trace (cell_train_instructions hub before_instruction_training).1) = 0%nat ∧
  count_events is_backward
    (trace (cell_train_instructions hub before_instruction_training).1) = 0%nat ∧
  count_events is_step
    (trace (cell_train_instructions hub before_instruction_training).1) = 0%nat.
Proof.
  split; [vm_compute; reflexivity|]. split; [vm_compute; reflexivity|].
  assert (∃ m ids mask tor,
    globals before_instruction_training !! "model" = Some (VModel m) ∧
    globals before_instruction_training !! "input_ids" = Some (VTensor ids) ∧
    globals before_instruction_training !! "attention_mask" = Some (VTensor mask) ∧
    globals before_instruction_training !! "torch" = Some tor ∧
    globals before_instruction_training !! "sentiments"
      = Some (VStrList ["positive"; "negative"; "neutral"]))
    as (m & ids & mask & tor & H1 & H2 & H3 & H4 & H5).
  { do 4 eexists. repeat split; vm_compute; reflexivity. }
  destruct (cell_train_instructions_raises hub _ _ _ _ _ _ _ H1 H2 H3 H4 H5)
    as (s' & Hrun & Htr).
  assert (Ht0 : trace before_instruction_training = []) by (vm_compute; reflexivity).
  rewrite Hrun; cbn [fst snd]. rewrite Htr, Ht0. cbn [app].
  repeat split.
Qed.

(** ** Failures *)




(** *** A cell that returns has had every operation succeed *)













(** ** The encoding cell *)

(** What the three encoding statements do, by what [tokenizer] and
    [texts] are bound to: nothing else of the state is read. *)
Lemma encode_texts_result s :
  encode_texts s =
    match globals s !! "tokenizer", globals s !! "texts" with
    | None, _ => (s, Raise (NameError "tokenizer"))
    | Some (VTokenizer tok), None => (s, Raise (NameError "texts"))
    | Some (VTokenizer tok), Some (VStrList l) =>
        (mkState
           (<["attention_mask" := VTensor (attention_mask (encode tok l))]>
              (<["input_ids" := VTensor (input_ids (encode tok l))]>
                 (<["encoded_texts" := VEncoding (encode tok l)]> (globals s))))
           (trace s),
         Ok tt)
    | Some _, _ => (s, Raise TypeError)
    end.
Proof.
  destruct s as [g tr]; cbn [globals trace].
  unfold encode_texts, tokenize_into, extract_input_ids, extract_attention_mask.
  destruct (g !! "tokenizer") as [vt|] eqn:Ht; [|by exec_run].
  destruct vt; try (by exec_run; destruct (g !! "texts")).
  destruct (g !! "texts") as [vx|] eqn:Hx; [|by exec_run].
  destruct vx; by exec_run.
Qed.

Lemma encode_texts_keeps_inputs s :
  globals (encode_texts s).1 !! "tokenizer" = globals s !! "tokenizer" ∧
  globals (encode_texts s).1 !! "texts" = globals s !! "texts".
Proof.
  rewrite encode_texts_result.
  destruct (globals s !! "tokenizer") as [[]|] eqn:Et;
    destruct (globals s !! "texts") as [[]|] eqn:Ex;
    simpl; rewrite ?lookup_insert_ne by done; done.
Qed.

Lemma encode_texts_agree s1 s2 :
  globals s1 !! "tokenizer" = globals s2 !! "tokenizer" →
  globals s1 !! "texts" = globals s2 !! "texts" →
  (encode_texts s1).2 = (encode_texts s2).2 ∧
  ((encode_texts s1).2 = Ok tt →
   ∀ x, x ∈ ["encoded_texts"; "input_ids"; "attention_mask"] →
     globals (encode_texts s1).1 !! x = globals (encode_texts s2).1 !! x).
Proof.
  intros Ht Hx. rewrite !encode_texts_result, <- Ht, <- Hx.
  destruct (globals s1 !! "tokenizer") as [[]|]; try done;
    destruct (globals s1 !! "texts") as [[]|]; try done.
  split; [done|]. intros _ x Hin. simpl.
  repeat (apply elem_of_cons in Hin as [->|Hin];
          [by repeat (rewrite lookup_insert_eq || rewrite lookup_insert_ne by done)|]).
  by apply elem_of_nil in Hin.
Qed.

(** The encoding statements read the tokenizer and the sample list
    and nothing else.  From two states that agree on [tokenizer] and
    [texts] they end alike, and when they succeed they bind
    [encoded_texts], [input_ids] and [attention_mask] to the same values,
    the ones [encode] gives for that tokenizer and that list; running
    them a second time, on the state the first run left, gives these
    values again. *)
Theorem encode_texts_deterministic s1 s2 :
  globals s1 !! "tokenizer" = globals s2 !! "tokenizer" →
  globals s1 !! "texts" = globals s2 !! "texts" →
  (encode_texts s1).2 = (encode_texts s2).2 ∧
  ((encode_texts s1).2 = Ok tt →
     (∀ x, x ∈ ["encoded_texts"; "input_ids"; "attention_mask"] →
        globals (encode_texts s1).1 !! x = globals (encode_texts s2).1 !! x) ∧
     (∃ tok texts,
        globals s1 !! "tokenizer" = Some (VTokenizer tok) ∧
        globals s1 !! "texts" = Some (VStrList texts) ∧
        globals (encode_texts s1).1 !! "input_ids"
          = Some (VTensor (input_ids (encode tok texts))) ∧
        globals (encode_texts s1).1 !! "attention_mask"
          = Some (VTensor (attention_mask (encode tok texts)))) ∧
     (encode_texts (encode_texts s1).1).2 = Ok tt ∧
     (∀ x, x ∈ ["encoded_texts"; "input_ids"; "attention_mask"] →
        globals (encode_texts (encode_texts s1).1).1 !! x
          = globals (encode_texts s1).1 !! x)).
Proof.
  intros Ht Hx.
  destruct (encode_texts_agree s1 s2 Ht Hx) as [Hout Hvals].
  split; [done|]. intros Hok.
  split; [by apply Hvals|].
  destruct (encode_texts_keeps_inputs s1) as [Hkt Hkx].
  destruct (encode_texts_agree (encode_texts s1).1 s1 Hkt Hkx) as [Hout' Hvals'].
  split; [|split; [congruence | apply Hvals'; congruence]].
  revert Hok. rewrite !encode_texts_result.
  destruct (globals s1 !! "tokenizer") as [[]|]; try done;
    destruct (globals s1 !! "texts") as [[]|]; try done.
  intros _. eexists _, _. repeat split; simpl.
  - by rewrite lookup_insert_ne, lookup_insert_eq.
  - by rewrite lookup_insert_eq.
Qed.

Lemma encode_texts_deterministic_witness :
  (encode_texts (mkState {[ "tokenizer" := VTokenizer char_tokenizer;
                            "texts" := VStrList ["ab"; "c"] ]} [])).2
  = (encode_texts (mkState {[ "tokenizer" := VTokenizer char_tokenizer;
                              "texts" := VStrList ["ab"; "c"];
                              "input_ids" := VInt 7 ]} [EStep])).2.
Proof.
  refine (proj1 (encode_texts_deterministic
                   (mkState {[ "tokenizer" := VTokenizer char_tokenizer;
                               "texts" := VStrList ["ab"; "c"] ]} [])
                   (mkState {[ "tokenizer" := VTokenizer char_tokenizer;
                               "texts" := VStrList ["ab"; "c"];
                               "input_ids" := VInt 7 ]} [EStep]) _ _));
    vm_compute; reflexivity.
Defined.


(** ** The concatenation cell *)

(** The cell computes [concat_instructions] on the three tensors it
    reads and rebinds [input_ids] and [attention_mask] to the result. *)
Lemma cell_concat_result s instr ids mask ids' mask' :
  globals s !! "instruction_ids" = Some (VTensor instr) →
  globals s !! "input_ids" = Some (VTensor ids) →
  globals s !! "attention_mask" = Some (VTensor mask) →
  concat_instructions instr ids mask = Ok (ids', mask') →
  cell_concat s =
    (mkState
       (<["attention_mask" := VTensor mask']>
          (<["input_ids" := VTensor ids']>
             (<["torch" := VModule "torch"]> (globals s))))
       (trace s),
     Ok tt).
Proof.
  destruct s as [g tr]; cbn [globals trace]. intros Hi Ht Hm Hc.
  unfold concat_instructions in Hc.
  destruct (cat_dim1 [instr; ids]) as [a|] eqn:Ha; [|done].
  destruct (cat_dim1 [ones_like instr; mask]) as [b|] eqn:Hb; [|done].
  simpl in Hc. injection Hc as <- <-.
  unfold cell_concat, import_as. exec_run. done.
Qed.

Lemma concat_instructions_length_witness :
  ∃ ids' mask',
    concat_instructions
      (input_ids (encode char_tokenizer ["ab"; "a"]))
      (input_ids (encode char_tokenizer ["xyz"; "x"]))
      (attention_mask (encode char_tokenizer ["xyz"; "x"])) = Ok (ids', mask') ∧
    shape ids' = (2%nat, 5%nat) ∧ shape mask' = (2%nat, 5%nat).
Proof.
  destruct (concat_instructions_length
              (input_ids (encode char_tokenizer ["ab"; "a"]))
              (input_ids (encode char_tokenizer ["xyz"; "x"]))
              (attention_mask (encode char_tokenizer ["xyz"; "x"])))
    as (ids' & mask' & Hc & _ & _ & Hs1 & Hs2 & _).
  - repeat constructor.
  - repeat constructor.
  - repeat constructor.
  - reflexivity.
  - reflexivity.
  - exists ids', mask'. split; [exact Hc|]. split; [exact Hs1|].
    rewrite Hs2. exact Hs1.
Defined.

Lemma get_in_range t i j v :
  rectangular t → get t i j = Some v → (i < nrows t)%nat ∧ (j < t_cols t)%nat.
Proof.
  intros Hr. unfold get.
  destruct (t_rows t !! i) as [row|] eqn:Hi; [|done]. simpl. intros Hj.
  split; [by eapply lookup_lt_Some|].
  rewrite <- (rectangular_lookup _ _ _ Hr Hi). by eapply lookup_lt_Some.
Qed.

(** C8: in the adjusted attention mask every instruction position holds
    1 and every text position holds what the text's mask held; so a
    position that the instructions' own mask marks as padding (0) is
    marked as content (1). *)
Theorem adjusted_mask_marks_instructions instr ids mask :
  nrows instr = nrows ids → nrows mask = nrows ids →
  ∃ ids' mask',
    concat_instructions instr ids mask = Ok (ids', mask') ∧
    (∀ i j, (i < nrows instr)%nat → (j < t_cols instr)%nat →
       get mask' i j = Some 1) ∧
    (∀ i j, (i < nrows instr)%nat →
       get mask' i (t_cols instr + j) = get mask i j) ∧
    (∀ own i j, rectangular own → shape own = shape instr →
       get own i j = Some 0 → get mask' i j = Some 1).
Proof.
  intros Hn Hm. eexists _, _.
  split; [by apply concat_instructions_ok|].
  assert (Hrow : ∀ i, (i < nrows instr)%nat →
            ∃ rm, t_rows mask !! i = Some rm ∧
                  zip_with app (t_rows (ones_like instr)) (t_rows mask) !! i
                    = Some (replicate (t_cols instr) 1 ++ rm)).
  { intros i Hi. destruct (row_exists mask i) as [rm Hrm]; [lia|].
    exists rm. split; [done|]. apply zip_app_lookup; [|done].
    unfold ones_like; simpl. by apply lookup_replicate_2. }
  assert (Hone : ∀ i j, (i < nrows instr)%nat → (j < t_cols instr)%nat →
            get (mkTensor (zip_with app (t_rows (ones_like instr)) (t_rows mask))
                          (t_cols instr + t_cols mask)) i j = Some 1).
  { intros i j Hi Hj. destruct (Hrow i Hi) as (rm & _ & Hz).
    unfold get; cbn [t_rows]. rewrite Hz; simpl.
    rewrite lookup_app_l by (by rewrite length_replicate).
    by apply lookup_replicate_2. }
  split; [exact Hone|]. split.
  - intros i j Hi. destruct (Hrow i Hi) as (rm & Hrm & Hz).
    unfold get; cbn [t_rows]. rewrite Hz, Hrm; simpl.
    rewrite lookup_app_r by (rewrite length_replicate; lia).
    rewrite length_replicate. f_equal. lia.
  - intros own i j Hr Hs Hget. injection Hs as Hs1 Hs2.
    destruct (get_in_range _ _ _ _ Hr Hget) as [Hi Hj].
    apply Hone; lia.
Qed.

Lemma adjusted_mask_marks_instructions_witness :
  get (attention_mask (encode char_tokenizer ["ab"; "a"])) 1 1 = Some 0 ∧
  ∃ ids' mask',
    concat_instructions
      (input_ids (encode char_tokenizer ["ab"; "a"]))
      (input_ids (encode char_tokenizer ["xyz"; "x"]))
      (attention_mask (encode char_tokenizer ["xyz"; "x"])) = Ok (ids', mask') ∧
    get mask' 1 1 = Some 1 ∧
    get mask' 1 3 = Some 0.
Proof.
  split; [reflexivity|].
  destruct (adjusted_mask_marks_instructions
              (input_ids (encode char_tokenizer ["ab"; "a"]))
              (input_ids (encode char_tokenizer ["xyz"; "x"]))
              (attention_mask (encode char_tokenizer ["xyz"; "x"]))
              eq_refl eq_refl)
    as (ids' & mask' & Hc & _ & Htext & Hown).
  exists ids', mask'. split; [exact Hc|]. split.
  - apply (Hown (attention_mask (encode char_tokenizer ["ab"; "a"])) 1%nat 1%nat).
    + repeat constructor.
    + reflexivity.
    + reflexivity.
  - exact (Htext 1%nat 1%nat (le_n 2)).
Defined.

(** ** The freezing cell *)

Lemma insert_middle {A} (l1 l2 : list A) x y :
  <[length l1 := y]> (l1 ++ x :: l2) = l1 ++ y :: l2.
Proof. rewrite insert_app_r_alt by lia. by rewrite Nat.sub_diag. Qed.

Lemma freeze_model_cons n p m :
  freeze_model ((n, p) :: m) = (n, freeze p) :: freeze_model m.
Proof. done. Qed.

(** One round of the loop freezes the parameter it visits and leaves the
    others, and every name but [model] and [param], as they are; [torch]
    is read for a one-dimensional parameter only. *)
Lemma freeze_at_result g tr h before n p after :
  g !! "model" = Some (VModel (mkModel h (before ++ (n, p) :: after))) →
  (ndim p = 1%nat → is_Some (g !! "torch")) →
  ∃ g',
    freeze_at (length before) (mkState g tr) = (mkState g' tr, Ok tt) ∧
    g' !! "model" = Some (VModel (mkModel h (before ++ (n, freeze p) :: after))) ∧
    (∀ x, x ≠ "model" → x ≠ "param" → g' !! x = g !! x).
Proof.
  intros Hm Ht. unfold freeze_at, set_param. exec_run.
  cbn [parameters hidden_size].
  rewrite list_lookup_middle by done. exec_run.
  cbn [parameters hidden_size ndim p_shape].
  rewrite insert_middle.
  unfold freeze. fold (ndim p).
  destruct (decide (ndim p = 1%nat)) as [H1|H1]; exec_run.
  - destruct (Ht H1) as [tor Htor]. exec_run.
    cbn [parameters hidden_size]. rewrite insert_middle.
    eexists. split; [reflexivity|]. split; [by exec_run|].
    intros x Hx1 Hx2. by rewrite !lookup_insert_ne.
  - eexists. split; [reflexivity|]. split; [by exec_run|].
    intros x Hx1 Hx2. by rewrite !lookup_insert_ne.
Qed.


(** The loop over all positions leaves the model frozen as
    [freeze_model] says. *)
Lemma freeze_loop_result after : ∀ g tr h before,
  g !! "model" = Some (VModel (mkModel h (before ++ after))) →
  (Exists (λ np, ndim np.2 = 1%nat) after → is_Some (g !! "torch")) →
  ∃ g',
    for_each (seq (length before) (length after)) freeze_at (mkState g tr)
      = (mkState g' tr, Ok tt) ∧
    g' !! "model" = Some (VModel (mkModel h (before ++ freeze_model after))) ∧
    (∀ x, x ≠ "model" → x ≠ "param" → g' !! x = g !! x).
Proof.
  induction after as [|[n p] after IH]; intros g tr h before Hm Ht.
  - exists g. done.
  - destruct (freeze_at_result g tr h before n p after Hm)
      as (g1 & Hrun & Hm1 & Hf1).
    { intros H1. apply Ht. by left. }
    destruct (IH g1 tr h (before ++ [(n, freeze p)])) as (g2 & Hloop & Hm2 & Hf2).
    { by rewrite <- app_assoc. }
    { intros H1. rewrite Hf1 by done. apply Ht. by right. }
    exists g2. split; [|split].
    + cbn [length seq for_each]. erewrite exec_bind_ok; [|exact Hrun].
      rewrite length_app in Hloop. simpl in Hloop.
      by replace (S (length before)) with (length before + 1)%nat by lia.
    + rewrite Hm2, freeze_model_cons, <- app_assoc. done.
    + intros x Hx1 Hx2. rewrite Hf2, Hf1; done.
Qed.


(** The freezing cell, where [model] and [nn] are bound, and [torch] too
    if a parameter is one-dimensional: it succeeds, emits nothing, and
    the model's parameters are those of [freeze_model], the head's
    listed under [lm_head.0.]. *)
Lemma cell_freeze_result s h m nn :
  globals s !! "model" = Some (VModel (mkModel h m)) →
  (Exists (λ np, ndim np.2 = 1%nat) m → is_Some (globals s !! "torch")) →
  globals s !! "nn" = Some nn →
  ∃ s', cell_freeze s = (s', Ok tt) ∧
        trace s' = trace s ∧
        globals s' !! "model"
          = Some (VModel (mkModel h (wrap_head (freeze_model m)))) ∧
        (∀ x, x ∉ ["model"; "param"; "CastOutputToFloat"] →
           globals s' !! x = globals s !! x).
Proof.
  destruct s as [g tr]; cbn [globals trace]. intros Hm Ht Hn.
  destruct (freeze_loop_result m g tr h [] Hm Ht) as (g1 & Hloop & Hm1 & Hf1).
  simpl in Hloop, Hm1.
  assert (Hn1 : g1 !! "nn" = Some nn) by (by rewrite Hf1).
  unfold cell_freeze. exec_run. cbn [parameters].
  rewrite Hloop. exec_run. eexists. split; [reflexivity|].
  cbn [globals trace]. split; [done|]. split; [by exec_run|].
  intros x Hx. rewrite !not_elem_of_cons in Hx.
  destruct Hx as (H1 & H2 & H3 & _).
  rewrite !lookup_insert_ne by done. by apply Hf1.
Qed.


(** ** No cell handles an exception *)



(** ** The cells of the PEFT variant on the sample hub *)

(** Run in order from an empty namespace, the variant stops at the cell
    that defines [print_trainable_parameters]: its string literal is
    broken over two lines. *)
Example peft_cells_halt :
  (run_cells
     [ cell_load_opt sample_hub; cell_freeze; cell_def_print; cell_lora;
       cell_trainer sample_hub ] 0 initial).2 = Some (2%nat, SyntaxError).
Proof. vm_compute. reflexivity. Qed.

(** With the definition skipped the next cell wraps the model and then
    finds the name unbound. *)
Example cell_lora_name_error :
  (cell_lora (run_cells [cell_load_opt sample_hub; cell_freeze] 0 initial).1).2
    = Raise (NameError "print_trainable_parameters").
Proof. vm_compute. reflexivity. Qed.

(** The label statement on the samples of the notebook. *)
Example sentiment_labels_sample :
  sentiment_labels sentiments = Ok [0; 1; 2] ∧
  num_classes [0; 1; 2] = 3%nat ∧
  sentiment_labels ["positive"; "positive"; "neutral"] = Ok [0; 0; 2] ∧
  num_classes [0; 0; 2] = 2%nat.
Proof. repeat split; vm_compute; reflexivity. Qed.

(** The standard variant run in order, with the samples bound as the
    dataset cell meant to: its cells import [torch.nn] and [torch.optim]
    under other names only, so the training cell finds [torch] unbound in
    its first epoch. *)
Example cell_train_in_order :
  (run_cells
     [ cell_load_distilbert sample_hub; cell_instruction_dataset; cell_encode;
       cell_head; cell_train sample_hub ] 0 initial).2
    = Some (4%nat, NameError "torch") ∧
  trace (run_cells
     [ cell_load_distilbert sample_hub; cell_instruction_dataset; cell_encode;
       cell_head; cell_train sample_hub ] 0 initial).1 = [EZeroGrad].
Proof. split; vm_compute; reflexivity. Qed.

(** * Further properties of the cells *)

(** ** Which names a statement touches *)

Lemma keeps_ret {A} x (a : A) : keeps x (exec_ret a).
Proof. by intros s. Qed.

Lemma keeps_raise {A} x e : keeps x (raise (A:=A) e).
Proof. by intros s. Qed.

Lemma keeps_lift {A} x (o : Outcome A) : keeps x (lift o).
Proof. by intros s. Qed.

Lemma keeps_read x y : keeps x (read y).
Proof. by intros s. Qed.

Lemma keeps_emit x e : keeps x (emit e).
Proof. by intros s. Qed.

Lemma keeps_assign x y v : x ≠ y → keeps x (assign y v).
Proof. intros H s. simpl. by rewrite lookup_insert_ne. Qed.

Lemma keeps_bind {A B} x (m : Exec A) (k : A → Exec B) :
  keeps x m → (∀ a, keeps x (k a)) → keeps x (exec_bind m k).
Proof.
  intros Hm Hk s. unfold exec_bind. specialize (Hm s).
  destruct (m s) as [s' [a|e]]; simpl in *; [|done].
  by rewrite Hk.
Qed.

Lemma keeps_read_as {A} x (f : PyVal → Outcome A) y : keeps x (read_as f y).
Proof. apply keeps_bind; [apply keeps_read | intros; apply keeps_lift]. Qed.

Lemma silent_ret {A} (a : A) : silent (exec_ret a).
Proof. by intros s. Qed.

Lemma silent_raise {A} e : silent (raise (A:=A) e).
Proof. by intros s. Qed.

Lemma silent_lift {A} (o : Outcome A) : silent (lift o).
Proof. by intros s. Qed.

Lemma silent_read y : silent (read y).
Proof. by intros s. Qed.

Lemma silent_assign y v : silent (assign y v).
Proof. by intros s. Qed.

Lemma silent_bind {A B} (m : Exec A) (k : A → Exec B) :
  silent m → (∀ a, silent (k a)) → silent (exec_bind m k).
Proof.
  intros Hm Hk s. unfold exec_bind. specialize (Hm s).
  destruct (m s) as [s' [a|e]]; simpl in *; [|done].
  by rewrite Hk.
Qed.

Lemma silent_read_as {A} (f : PyVal → Outcome A) y : silent (read_as f y).
Proof. apply silent_bind; [apply silent_read | intros; apply silent_lift]. Qed.

(** Straight-line statements: one rule per constructor. *)
Ltac frame :=
  repeat first
    [ apply keeps_bind; [|intros ?]
    | apply keeps_read_as
    | apply keeps_read
    | apply keeps_lift
    | apply keeps_emit
    | apply keeps_ret
    | apply keeps_raise
    | apply keeps_assign; done
    | apply silent_bind; [|intros ?]
    | apply silent_read_as
    | apply silent_read
    | apply silent_lift
    | apply silent_ret
    | apply silent_raise
    | apply silent_assign ].

(** X1: the encoding cell (tokenizer call, the two extractions and the
    label comprehension) adds no event and rebinds no name other than
    [encoded_texts], [input_ids], [attention_mask] and
    [sentiment_labels], whether it returns or raises: the model, the
    tokenizer and the samples are as before. *)
Theorem cell_encode_frame x :
  x ∉ ["encoded_texts"; "input_ids"; "attention_mask"; "sentiment_labels"] →
  keeps x cell_encode ∧ silent cell_encode.
Proof.
  intros Hx.
  assert (x ≠ "encoded_texts" ∧ x ≠ "input_ids" ∧ x ≠ "attention_mask"
          ∧ x ≠ "sentiment_labels") as (H1 & H2 & H3 & H4).
  { rewrite !not_elem_of_cons in Hx. tauto. }
  unfold cell_encode, encode_texts, tokenize_into, extract_input_ids,
    extract_attention_mask, label_sentiments.
  split; frame.
Qed.

Lemma cell_encode_frame_witness :
  globals (cell_encode (mkState {[ "tokenizer" := VTokenizer char_tokenizer;
                                   "texts" := VStrList ["ab"; "c"];
                                   "model" := VInt 1 ]} [EStep])).1 !! "model"
    = Some (VInt 1) ∧
  trace (cell_encode (mkState {[ "tokenizer" := VTokenizer char_tokenizer;
                                 "texts" := VStrList ["ab"; "c"];
                                 "model" := VInt 1 ]} [EStep])).1 = [EStep].
Proof.
  destruct (cell_encode_frame "model") as [Hk Hs].
  - rewrite !not_elem_of_cons. repeat split; try discriminate. apply not_elem_of_nil.
  - split.
    + rewrite Hk. vm_compute. reflexivity.
    + apply Hs.
Defined.

(** ** The first training loop without [torch] *)

(** A round of the loop cannot reach the forward pass when [torch] is
    unbound: the labels are converted by [torch.tensor]. *)
Lemma epoch_body_without_torch hub labels s :
  globals s !! "torch" = None →
  ∃ s' e, epoch_body hub labels s = (s', Raise e) ∧
          (trace s' = trace s ∨ trace s' = trace s ++ [EZeroGrad]).
Proof.
  destruct s as [g tr]; simpl. intros Ht. unfold epoch_body.
  destruct (g !! "optimizer") as [vo|] eqn:Ho; [|exec_run; halted].
  destruct (g !! "model") as [vm|] eqn:Hm; [|exec_run; halted].
  destruct vm; try (exec_run; halted).
  destruct (g !! "input_ids") as [vi|] eqn:Hi; [|exec_run; halted].
  destruct vi; try (exec_run; halted).
  destruct (g !! "attention_mask") as [va|] eqn:Ha; [|exec_run; halted].
  destruct va; exec_run; halted.
Qed.

Lemma train_loop_without_torch hub labels s :
  globals s !! "torch" = None →
  ∃ s' e, train_loop hub labels s = (s', Raise e) ∧
          (trace s' = trace s ∨ trace s' = trace s ++ [EZeroGrad]).
Proof.
  destruct s as [g tr]; simpl. intros Ht.
  unfold train_loop. exec_run.
  unfold for_range. change (Z.to_nat 3) with 3%nat.
  match goal with
  | |- context [for_range_from 0 3 _ _ ?s0] =>
      destruct (epoch_body_without_torch hub labels (assign "epoch" (VInt 0) s0).1)
        as (s' & e & Hb & Htr)
  end.
  { simpl. by rewrite !lookup_insert_ne. }
  exists s', e. split; [|exact Htr].
  apply for_range_raise. erewrite exec_bind_ok; [|reflexivity]. exact Hb.
Qed.

Lemma make_optimizer_frame x :
  x ≠ "optim" → x ≠ "optimizer" → keeps x make_optimizer ∧ silent make_optimizer.
Proof. intros H1 H2. unfold make_optimizer, import_as. split; frame. Qed.

Lemma make_criterion_frame x scope :
  x ≠ "criterion" → keeps x (make_criterion scope) ∧ silent (make_criterion scope).
Proof. intros H1. unfold make_criterion. split; frame. Qed.

Lemma cell_train_without_torch hub s :
  globals s !! "torch" = None →
  ∃ s' e, cell_train hub s = (s', Raise e) ∧
          (trace s' = trace s ∨ trace s' = trace s ++ [EZeroGrad]).
Proof.
  intros Ht. unfold cell_train.
  destruct (make_optimizer_frame "torch") as [Hk1 Hs1]; [done..|].
  specialize (Hk1 s). specialize (Hs1 s).
  destruct (make_optimizer s) as [s1 [[]|e1]] eqn:H1; simpl in *.
  2:{ exists s1, e1. split; [by apply exec_bind_raise | by left]. }
  erewrite exec_bind_ok; [|exact H1].
  destruct (make_criterion_frame "torch" "nn") as [Hk2 Hs2]; [done|].
  specialize (Hk2 s1). specialize (Hs2 s1).
  destruct (make_criterion "nn" s1) as [s2 [[]|e2]] eqn:H2; simpl in *.
  2:{ exists s2, e2. split; [by apply exec_bind_raise | left; congruence]. }
  erewrite exec_bind_ok; [|exact H2].
  destruct (train_loop_without_torch hub "sentiment_labels" s2) as (s' & e & Hrun & Htr);
    [congruence|].
  exists s', e. split; [done|]. rewrite Hs2, Hs1 in Htr. done.
Qed.

Lemma standard_cells_keep_torch hub :
  keeps "torch" (cell_load_distilbert hub) ∧ silent (cell_load_distilbert hub) ∧
  keeps "torch" cell_encode ∧ silent cell_encode ∧
  keeps "torch" cell_head ∧ silent cell_head.
Proof.
  unfold cell_load_distilbert, load_tokenizer, load_model, cell_head, import_as.
  unfold cell_encode, encode_texts, tokenize_into, extract_input_ids,
    extract_attention_mask, label_sentiments.
  cbn [from_import].
  repeat split; frame.
Qed.

(** X2: the cells of the standard variant bind [torch.nn] as [nn] and
    [torch.optim] as [optim] but never the name [torch], which the
    training loop needs for [torch.tensor].  So where [torch] is unbound
    the training cell raises in its first epoch, with [zero_grad] at most
    done; and whatever the dataset cell binds, as long as it leaves
    [torch] alone and calls nothing, a run of the variant in order from
    an empty namespace ends with an exception and without a single
    forward pass, backward pass or optimiser step. *)
Theorem standard_variant_never_trains hub (dataset : Exec unit) :
  keeps "torch" dataset → silent dataset →
  (∀ s, globals s !! "torch" = None →
     ∃ s' e, cell_train hub s = (s', Raise e) ∧
             (trace s' = trace s ∨ trace s' = trace s ++ [EZeroGrad])) ∧
  ∃ s' k e,
    run_cells [cell_load_distilbert hub; dataset; cell_encode; cell_head;
               cell_train hub]
      0 initial = (s', Some (k, e)) ∧
    count_events is_forward (trace s') = 0%nat ∧
    count_events is_backward (trace s') = 0%nat ∧
    count_events is_step (trace s') = 0%nat.
Proof.
  intros Hkd Hsd. split; [apply cell_train_without_torch|].
  destruct (standard_cells_keep_torch hub) as (Hk0 & Hs0 & Hk2 & Hs2 & Hk3 & Hs3).
  cbn [run_cells].
  specialize (Hk0 initial). specialize (Hs0 initial).
  destruct (cell_load_distilbert hub initial) as [s0 [[]|e0]]; simpl in *.
  2:{ exists s0, 0%nat, e0. rewrite Hs0. done. }
  specialize (Hkd s0). specialize (Hsd s0).
  destruct (dataset s0) as [s1 [[]|e1]]; simpl in *.
  2:{ exists s1, 1%nat, e1. rewrite Hsd, Hs0. done. }
  specialize (Hk2 s1). specialize (Hs2 s1).
  destruct (cell_encode s1) as [s2 [[]|e2]]; simpl in *.
  2:{ exists s2, 2%nat, e2. rewrite Hs2, Hsd, Hs0. done. }
  specialize (Hk3 s2). specialize (Hs3 s2).
  destruct (cell_head s2) as [s3 [[]|e3]]; simpl in *.
  2:{ exists s3, 3%nat, e3. rewrite Hs3, Hs2, Hsd, Hs0. done. }
  destruct (cell_train_without_torch hub s3) as (s4 & e4 & Hrun & Htr).
  { rewrite Hk3, Hk2, Hkd, Hk0. done. }
  rewrite Hrun. exists s4, 4%nat, e4. split; [done|].
  rewrite Hs3, Hs2, Hsd, Hs0 in Htr. simpl in Htr.
  destruct Htr as [-> | ->]; done.
Qed.

Lemma standard_variant_never_trains_witness :
  ∃ s' k e,
    run_cells [cell_load_distilbert sample_hub; cell_instruction_dataset;
               cell_encode; cell_head; cell_train sample_hub] 0 initial
      = (s', Some (k, e)) ∧
    count_events is_forward (trace s') = 0%nat ∧
    count_events is_backward (trace s') = 0%nat ∧
    count_events is_step (trace s') = 0%nat.
Proof.
  refine (proj2 (standard_variant_never_trains sample_hub cell_instruction_dataset _ _)).
  - unfold cell_instruction_dataset. frame.
  - unfold cell_instruction_dataset. frame.
Defined.

(** ** More on the labels *)

(** No position before the index holds the string looked for. *)
Lemma index_first l x k j :
  index l x = Ok k → (j < Z.to_nat k)%nat → l !! j ≠ Some x.
Proof.
  revert k j. induction l as [|y l IH]; intros k j; simpl; [done|].
  destruct (decide (y = x)) as [->|Hne].
  - intros [= <-]. simpl. lia.
  - intros (i & Hi & [= <-])%obind_ok Hj.
    destruct (index_position _ _ _ Hi) as [Hge _].
    destruct j as [|j]; simpl; [congruence|].
    apply (IH i j Hi). lia.
Qed.

(** The index of the string at position [i] is at most [i]. *)
Lemma index_le l x k i :
  index l x = Ok k → l !! i = Some x → k ≤ Z.of_nat i.
Proof.
  intros Hk Hi. destruct (index_position _ _ _ Hk) as [Hge _].
  destruct (decide (i < Z.to_nat k)%nat) as [Hlt|]; [|lia].
  by destruct (index_first _ _ _ _ Hk Hlt).
Qed.

(** X3: the label of a sample is the position of the first sample with
    the same sentiment string: it lies between 0 and the sample's own
    position, the sample at that position has the same string and no
    earlier one has, and the label found at that position is the position
    itself. *)
Theorem sentiment_labels_first_occurrence sentiments labels i s k :
  sentiment_labels sentiments = Ok labels →
  sentiments !! i = Some s →
  labels !! i = Some k →
  0 ≤ k ≤ Z.of_nat i ∧
  sentiments !! Z.to_nat k = Some s ∧
  (∀ j, (j < Z.to_nat k)%nat → sentiments !! j ≠ Some s) ∧
  labels !! Z.to_nat k = Some k.
Proof.
  intros Hl Hi Hk. pose proof (sentiment_labels_fmap _ _ Hl) as ->.
  rewrite list_lookup_fmap, Hi in Hk. injection Hk as <-.
  destruct (index_elem sentiments s) as [k Hidx]; [by eapply list_elem_of_lookup_2|].
  assert (index_of sentiments s = k) as -> by (unfold index_of; by rewrite Hidx).
  destruct (index_position _ _ _ Hidx) as [Hge Hpos].
  repeat split.
  - done.
  - by eapply index_le.
  - done.
  - intros j Hj. by eapply index_first.
  - rewrite list_lookup_fmap, Hpos. simpl. unfold index_of. by rewrite Hidx.
Qed.

Lemma sentiment_labels_first_occurrence_witness :
  0 ≤ 0 ≤ Z.of_nat 1 ∧
  ["positive"; "positive"; "neutral"] !! Z.to_nat 0 = Some "positive" ∧
  (∀ j, (j < Z.to_nat 0)%nat → ["positive"; "positive"; "neutral"] !! j ≠ Some "positive") ∧
  [0; 0; 2] !! Z.to_nat 0 = Some 0.
Proof.
  apply (sentiment_labels_first_occurrence
           ["positive"; "positive"; "neutral"] [0; 0; 2] 1 "positive" 0);
    reflexivity.
Defined.

(** With pairwise distinct strings every sample is its own first
    occurrence. *)
Lemma sentiment_labels_distinct sentiments :
  NoDup sentiments →
  sentiment_labels sentiments = Ok (seqZ 0 (Z.of_nat (length sentiments))).
Proof.
  intros Hnd. destruct (sentiment_labels_total sentiments) as [labels Hl].
  rewrite Hl. f_equal. apply list_eq. intros i.
  pose proof (sentiment_labels_fmap _ _ Hl) as Hmap.
  destruct (sentiments !! i) as [s|] eqn:Hi.
  - assert (is_Some (labels !! i)) as [k Hk].
    { rewrite Hmap, list_lookup_fmap, Hi. by eexists. }
    destruct (sentiment_labels_total sentiments) as [? _].
    assert (Hpos : sentiments !! Z.to_nat k = Some s ∧ 0 ≤ k).
    { rewrite Hmap, list_lookup_fmap, Hi in Hk. injection Hk as <-.
      destruct (index_elem sentiments s) as [k Hidx]; [by eapply list_elem_of_lookup_2|].
      unfold index_of. rewrite Hidx.
      destruct (index_position _ _ _ Hidx). done. }
    destruct Hpos as [Hpos Hge].
    pose proof (NoDup_lookup _ _ _ _ Hnd Hpos Hi) as Heq.
    rewrite Hk. symmetry. apply lookup_seqZ.
    apply lookup_lt_Some in Hi. lia.
  - rewrite Hmap, list_lookup_fmap, Hi. simpl. symmetry.
    apply lookup_seqZ_ge. apply lookup_ge_None in Hi. lia.
Qed.

(** X4: when the sentiment strings are pairwise distinct the labels are
    [0, 1, ..., N-1], [num_classes] is [N], and every label is a valid
    class index below [num_classes].  With repeated strings this can
    fail: indices are positions, not ranks, so a label can be as large as
    [num_classes] or larger. *)
Theorem labels_below_num_classes :
  (∀ sentiments, NoDup sentiments →
     sentiment_labels sentiments = Ok (seqZ 0 (Z.of_nat (length sentiments))) ∧
     num_classes (seqZ 0 (Z.of_nat (length sentiments))) = length sentiments ∧
     ∀ k, k ∈ seqZ 0 (Z.of_nat (length sentiments)) →
       0 ≤ k < Z.of_nat (num_classes (seqZ 0 (Z.of_nat (length sentiments))))) ∧
  (∃ sentiments labels k,
     sentiment_labels sentiments = Ok labels ∧
     k ∈ labels ∧ Z.of_nat (num_classes labels) ≤ k).
Proof.
  split.
  - intros sentiments Hnd.
    pose proof (sentiment_labels_distinct _ Hnd) as Hl.
    assert (Hn : num_classes (seqZ 0 (Z.of_nat (length sentiments))) = length sentiments).
    { rewrite (num_classes_distinct _ _ Hl). unfold label_set.
      by apply size_list_to_set. }
    split; [done|]. split; [done|].
    intros k Hk. rewrite Hn. apply elem_of_seqZ in Hk. lia.
  - exists ["positive"; "positive"; "negative"], [0; 0; 2], 2.
    split; [reflexivity|]. split; [set_solver|]. vm_compute. by intros [=].
Qed.

Lemma labels_below_num_classes_witness :
  sentiment_labels sentiments = Ok [0; 1; 2] ∧ num_classes [0; 1; 2] = 3%nat.
Proof.
  destruct labels_below_num_classes as [H _].
  destruct (H sentiments) as (H1 & H2 & _).
  - apply (bool_decide_unpack _). vm_compute. reflexivity.
  - split; [exact H1 | exact H2].
Defined.

(** ** The classification head *)





(** ** The concatenation cell, run again and on unequal batches *)

(** X6: the concatenation cell reads the [input_ids] and
    [attention_mask] it rebinds, so it is not idempotent: a second run
    prepends the instructions once more, and both tensors are then
    [2 * instruction length + text length] wide. *)
Theorem cell_concat_twice s instr ids mask :
  globals s !! "instruction_ids" = Some (VTensor instr) →
  globals s !! "input_ids" = Some (VTensor ids) →
  globals s !! "attention_mask" = Some (VTensor mask) →
  nrows instr = nrows ids → nrows mask = nrows ids →
  ∃ s1 s2 ids2 mask2,
    cell_concat s = (s1, Ok tt) ∧
    cell_concat s1 = (s2, Ok tt) ∧
    globals s2 !! "input_ids" = Some (VTensor ids2) ∧
    globals s2 !! "attention_mask" = Some (VTensor mask2) ∧
    shape ids2 = (nrows ids, (t_cols instr + (t_cols instr + t_cols ids))%nat) ∧
    shape mask2 = (nrows ids, (t_cols instr + (t_cols instr + t_cols mask))%nat) ∧
    ∀ i ri rt, t_rows instr !! i = Some ri → t_rows ids !! i = Some rt →
      t_rows ids2 !! i = Some (ri ++ ri ++ rt).
Proof.
  intros Hi Ht Hm Hn1 Hn2.
  pose proof (concat_instructions_ok instr ids mask Hn1 Hn2) as Hc1.
  pose proof (cell_concat_result s _ _ _ _ _ Hi Ht Hm Hc1) as Hrun1.
  set (ids1 := mkTensor (zip_with app (t_rows instr) (t_rows ids))
                        (t_cols instr + t_cols ids)) in *.
  set (mask1 := mkTensor (zip_with app (t_rows (ones_like instr)) (t_rows mask))
                         (t_cols instr + t_cols mask)) in *.
  assert (Hr1 : nrows ids1 = nrows ids).
  { unfold nrows, ids1; simpl. by apply zip_app_length. }
  assert (Hol : length (t_rows (ones_like instr)) = length (t_rows mask)).
  { change (nrows (ones_like instr) = nrows mask).
    rewrite ones_like_nrows. congruence. }
  assert (Hr2 : nrows mask1 = nrows ids).
  { unfold nrows, mask1; cbn [t_rows]. rewrite zip_app_length; done. }
  set (s1 := mkState
               (<["attention_mask" := VTensor mask1]>
                  (<["input_ids" := VTensor ids1]>
                     (<["torch" := VModule "torch"]> (globals s)))) (trace s)) in *.
  assert (Hc2 := concat_instructions_ok instr ids1 mask1
                   (eq_trans Hn1 (eq_sym Hr1)) (eq_trans Hr2 (eq_sym Hr1))).
  assert (Hg1 : globals s1 !! "instruction_ids" = Some (VTensor instr)).
  { unfold s1; cbn [globals]. by rewrite !lookup_insert_ne. }
  assert (Hg2 : globals s1 !! "input_ids" = Some (VTensor ids1)).
  { unfold s1; cbn [globals]. by rewrite lookup_insert_ne, lookup_insert_eq. }
  assert (Hg3 : globals s1 !! "attention_mask" = Some (VTensor mask1)).
  { unfold s1; cbn [globals]. by rewrite lookup_insert_eq. }
  pose proof (cell_concat_result s1 instr ids1 mask1 _ _ Hg1 Hg2 Hg3 Hc2) as Hrun2.
  eexists s1, _, _, _.
  split; [exact Hrun1|]. split; [exact Hrun2|].
  cbn [globals].
  split; [by rewrite lookup_insert_ne, lookup_insert_eq|].
  split; [by rewrite lookup_insert_eq|].
  split; [|split].
  - unfold shape. f_equal. unfold nrows at 1; cbn [t_rows].
    rewrite zip_app_length; [exact Hr1|].
    change (nrows instr = nrows ids1). congruence.
  - unfold shape. f_equal. unfold nrows at 1; cbn [t_rows].
    rewrite zip_app_length; [exact Hr2|].
    change (nrows (ones_like instr) = nrows mask1).
    rewrite ones_like_nrows. congruence.
  - intros i ri rt Hri Hrt. cbn [t_rows].
    apply zip_app_lookup; [done|]. unfold ids1; cbn [t_rows].
    by apply zip_app_lookup.
Qed.

Lemma cell_concat_twice_witness :
  ∃ s1 s2 ids2,
    cell_concat
      (mkState {[ "instruction_ids" := VTensor (mkTensor [[7; 8]] 2);
                  "input_ids" := VTensor (mkTensor [[1; 2; 3]] 3);
                  "attention_mask" := VTensor (mkTensor [[1; 1; 0]] 3) ]} [])
      = (s1, Ok tt) ∧
    cell_concat s1 = (s2, Ok tt) ∧
    globals s2 !! "input_ids" = Some (VTensor ids2) ∧
    shape ids2 = (1%nat, 7%nat) ∧
    t_rows ids2 !! 0%nat = Some [7; 8; 7; 8; 1; 2; 3].
Proof.
  destruct (cell_concat_twice
              (mkState {[ "instruction_ids" := VTensor (mkTensor [[7; 8]] 2);
                          "input_ids" := VTensor (mkTensor [[1; 2; 3]] 3);
                          "attention_mask" := VTensor (mkTensor [[1; 1; 0]] 3) ]} [])
              (mkTensor [[7; 8]] 2) (mkTensor [[1; 2; 3]] 3) (mkTensor [[1; 1; 0]] 3))
    as (s1 & s2 & ids2 & mask2 & H1 & H2 & H3 & _ & H5 & _ & H7).
  - vm_compute. reflexivity.
  - vm_compute. reflexivity.
  - vm_compute. reflexivity.
  - reflexivity.
  - reflexivity.
  - exists s1, s2, ids2. repeat split; try done.
    apply (H7 0%nat [7; 8] [1; 2; 3]); reflexivity.
Defined.

Lemma cell_concat_raises s instr ids :
  globals s !! "instruction_ids" = Some (VTensor instr) →
  globals s !! "input_ids" = Some (VTensor ids) →
  nrows instr ≠ nrows ids →
  cell_concat s =
    (mkState (<["torch" := VModule "torch"]> (globals s)) (trace s),
     Raise RuntimeError).
Proof.
  destruct s as [g tr]; cbn [globals trace]. intros Hi Ht Hn.
  unfold cell_concat, import_as. exec_run.
  cbn [cat_dim1 obind]. by rewrite hstack_mismatch.
Qed.

(** X7: with another number of instruction rows than text rows the
    concatenation cell raises [RuntimeError] at the first [torch.cat];
    [torch] is bound by then, [input_ids] and [attention_mask] are
    untouched. *)
Theorem cell_concat_mismatch s instr ids :
  globals s !! "instruction_ids" = Some (VTensor instr) →
  globals s !! "input_ids" = Some (VTensor ids) →
  nrows instr ≠ nrows ids →
  cell_concat s =
    (mkState (<["torch" := VModule "torch"]> (globals s)) (trace s),
     Raise RuntimeError) ∧
  globals (cell_concat s).1 !! "input_ids" = globals s !! "input_ids" ∧
  globals (cell_concat s).1 !! "attention_mask" = globals s !! "attention_mask".
Proof.
  intros Hi Ht Hn. rewrite (cell_concat_raises s instr ids Hi Ht Hn).
  split; [done|]. cbn [fst globals]. by rewrite !lookup_insert_ne.
Qed.

Lemma cell_concat_mismatch_witness :
  (cell_concat
     (mkState {[ "instruction_ids" := VTensor (mkTensor [[7; 8]; [7; 9]] 2);
                 "input_ids" := VTensor (mkTensor [[1; 2; 3]] 3);
                 "attention_mask" := VTensor (mkTensor [[1; 1; 0]] 3) ]} [])).2
  = Raise RuntimeError.
Proof.
  refine (f_equal snd (proj1 (cell_concat_mismatch
            (mkState {[ "instruction_ids" := VTensor (mkTensor [[7; 8]; [7; 9]] 2);
                        "input_ids" := VTensor (mkTensor [[1; 2; 3]] 3);
                        "attention_mask" := VTensor (mkTensor [[1; 1; 0]] 3) ]} [])
            (mkTensor [[7; 8]; [7; 9]] 2) (mkTensor [[1; 2; 3]] 3) _ _ _))).
  - vm_compute. reflexivity.
  - vm_compute. reflexivity.
  - vm_compute. discriminate.
Defined.

(** ** Texts and instructions paired by position *)

Lemma encode_nrows tok l :
  nrows (input_ids (encode tok l)) = length l ∧
  nrows (attention_mask (encode tok l)) = length l.
Proof. unfold encode, nrows; simpl. by rewrite !length_fmap. Qed.

(** What the tokenization cell of the instruction variant binds. *)
Lemma cell_encode_instructions_result s tok ts ins :
  globals s !! "tokenizer" = Some (VTokenizer tok) →
  globals s !! "texts" = Some (VStrList ts) →
  globals s !! "instructions" = Some (VStrList ins) →
  ∃ s',
    cell_encode_instructions s = (s', Ok tt) ∧
    trace s' = trace s ∧
    globals s' !! "instruction_ids" = Some (VTensor (input_ids (encode tok ins))) ∧
    globals s' !! "input_ids" = Some (VTensor (input_ids (encode tok ts))) ∧
    globals s' !! "attention_mask" = Some (VTensor (attention_mask (encode tok ts))).
Proof.
  destruct s as [g tr]; cbn [globals trace]. intros Hk Ht Hi.
  unfold cell_encode_instructions, tokenize_into, extract_input_ids,
    extract_attention_mask.
  exec_run. eexists. split; [reflexivity|]. cbn [globals trace].
  split; [done|]. by exec_run.
Qed.

(** X8: texts and instructions are paired by position only.  With as
    many instructions as texts the tokenization cell followed by the
    concatenation cell succeeds and [input_ids] has one row per text; with
    any other number of instructions the concatenation raises
    [RuntimeError]. *)
Theorem instructions_paired_by_position s tok ts ins :
  globals s !! "tokenizer" = Some (VTokenizer tok) →
  globals s !! "texts" = Some (VStrList ts) →
  globals s !! "instructions" = Some (VStrList ins) →
  (length ins = length ts →
     ∃ s' ids',
       (cell_encode_instructions ;$ cell_concat) s = (s', Ok tt) ∧
       globals s' !! "input_ids" = Some (VTensor ids') ∧
       shape ids' = (length ts,
                     (t_cols (input_ids (encode tok ins))
                      + t_cols (input_ids (encode tok ts)))%nat)) ∧
  (length ins ≠ length ts →
     ∃ s', (cell_encode_instructions ;$ cell_concat) s = (s', Raise RuntimeError)).
Proof.
  intros Hk Ht Hi.
  destruct (cell_encode_instructions_result s tok ts ins Hk Ht Hi)
    as (s1 & Hrun & _ & Hg1 & Hg2 & Hg3).
  destruct (encode_nrows tok ts) as [Hn1 Hn2].
  destruct (encode_nrows tok ins) as [Hn3 _].
  split; intros Hlen.
  - pose proof (concat_instructions_ok
                  (input_ids (encode tok ins)) (input_ids (encode tok ts))
                  (attention_mask (encode tok ts))) as Hc.
    specialize (Hc ltac:(congruence) ltac:(congruence)).
    pose proof (cell_concat_result s1 _ _ _ _ _ Hg1 Hg2 Hg3 Hc) as Hrun2.
    eexists _, _. split; [|split].
    + erewrite exec_bind_ok; [exact Hrun2 | exact Hrun].
    + cbn [globals]. by rewrite lookup_insert_ne, lookup_insert_eq.
    + unfold shape. f_equal. unfold nrows at 1; cbn [t_rows].
      rewrite zip_app_length; [exact Hn1|].
      change (nrows (input_ids (encode tok ins)) = nrows (input_ids (encode tok ts))).
      congruence.
  - eexists. erewrite exec_bind_ok; [|exact Hrun].
    apply (cell_concat_raises s1 _ _ Hg1 Hg2). congruence.
Qed.

Lemma instructions_paired_by_position_witness :
  (∃ s', (cell_encode_instructions ;$ cell_concat)
           (mkState {[ "tokenizer" := VTokenizer char_tokenizer;
                       "texts" := VStrList ["ab"; "c"];
                       "instructions" := VStrList ["x"] ]} [])
         = (s', Raise RuntimeError)) ∧
  (∃ s' ids', (cell_encode_instructions ;$ cell_concat)
           (mkState {[ "tokenizer" := VTokenizer char_tokenizer;
                       "texts" := VStrList ["ab"; "c"];
                       "instructions" := VStrList ["x"; "yz"] ]} [])
         = (s', Ok tt) ∧
         globals s' !! "input_ids" = Some (VTensor ids') ∧
         shape ids' = (2%nat, 4%nat)).
Proof.
  split.
  - refine (proj2 (instructions_paired_by_position _ char_tokenizer
                     ["ab"; "c"] ["x"] _ _ _) _);
      try (vm_compute; reflexivity). vm_compute. discriminate.
  - refine (proj1 (instructions_paired_by_position _ char_tokenizer
                     ["ab"; "c"] ["x"; "yz"] _ _ _) _);
      vm_compute; reflexivity.
Defined.

(** ** Freezing and counting *)

Lemma freeze_model_lookup m i n p :
  m !! i = Some (n, p) → freeze_model m !! i = Some (n, freeze p).
Proof. intros H. unfold freeze_model. by rewrite list_lookup_fmap, H. Qed.

(** The wrapped head: same parameters under other names. *)
Lemma wrap_head_lookup m i n p :
  m !! i = Some (n, p) → wrap_head m !! i = Some (wrap_head_name n, p).
Proof. intros H. unfold wrap_head. by rewrite list_lookup_fmap, H. Qed.

Lemma wrap_head_length m : length (wrap_head m) = length m.
Proof. unfold wrap_head. by rewrite length_fmap. Qed.

Lemma wrap_head_frozen m : frozen m → frozen (wrap_head m).
Proof.
  unfold frozen, wrap_head. intros H. rewrite Forall_fmap.
  eapply Forall_impl; [exact H|]. by intros [n p].
Qed.

Lemma wrap_head_sums m :
  sum_numel (wrap_head m) = sum_numel m ∧
  sum_trainable (wrap_head m) = sum_trainable m.
Proof.
  induction m as [|[n p] m [IH1 IH2]]; [done|].
  csimpl. by rewrite IH1, IH2.
Qed.

Lemma wrap_head_freeze m :
  freeze_model (wrap_head m) = wrap_head (freeze_model m).
Proof.
  unfold freeze_model, wrap_head. rewrite <- !list_fmap_compose.
  apply list_fmap_ext. by intros _ [n p] _.
Qed.

Lemma wrap_head_name_other n :
  head (split_dots n) ≠ Some "lm_head" → wrap_head_name n = n.
Proof.
  unfold wrap_head_name. destruct (split_dots n) as [|c rest]; [done|].
  simpl. intros H. rewrite decide_False; [done|]. congruence.
Qed.

Lemma freeze_idempotent p : freeze (freeze p) = freeze p.
Proof.
  unfold freeze, ndim; simpl. f_equal.
  by destruct (decide (length (p_shape p) = 1%nat)).
Qed.

Lemma freeze_model_idempotent m : freeze_model (freeze_model m) = freeze_model m.
Proof.
  induction m as [|[n p] m IH]; [done|].
  by rewrite !freeze_model_cons, IH, freeze_idempotent.
Qed.

(** X9: where [model], [torch] and [nn] are bound the freezing cell
    returns without any event and leaves a model with the same
    parameters in the same order and with the same shapes, none of them
    trainable; exactly the one-dimensional parameters are now of type
    float32, the others keep their element type.  The parameters of the
    head are listed under [lm_head.0.], the head being wrapped in a
    sequence; the other names are as before.  The counting loop then
    finds no trainable element and the same total as before. *)
Theorem cell_freeze_freezes s h m tor nn :
  globals s !! "model" = Some (VModel (mkModel h m)) →
  globals s !! "torch" = Some tor →
  globals s !! "nn" = Some nn →
  ∃ s' m',
    cell_freeze s = (s', Ok tt) ∧
    trace s' = trace s ∧
    globals s' !! "model" = Some (VModel (mkModel h m')) ∧
    length m' = length m ∧
    frozen m' ∧
    (∀ i n p, m !! i = Some (n, p) →
       ∃ p', m' !! i = Some (wrap_head_name n, p') ∧
             p_shape p' = p_shape p ∧
             requires_grad p' = false ∧
             (ndim p = 1%nat → dtype p' = Float32) ∧
             (ndim p ≠ 1%nat → dtype p' = dtype p)) ∧
    (∀ n, head (split_dots n) ≠ Some "lm_head" → wrap_head_name n = n) ∧
    wrap_head_name "lm_head.weight" = "lm_head.0.weight" ∧
    wrap_head_name "lm_head.bias" = "lm_head.0.bias" ∧
    count_parameters m' = (0%N, sum_numel m).
Proof.
  intros Hm Ht Hn.
  destruct (cell_freeze_result s h m nn Hm (λ _, mk_is_Some _ _ Ht) Hn)
    as (s' & Hrun & Htr & Hm' & _).
  exists s', (wrap_head (freeze_model m)).
  split; [done|]. split; [done|]. split; [done|].
  split; [by rewrite wrap_head_length, freeze_model_length|].
  split; [apply wrap_head_frozen, freeze_model_frozen|]. split.
  { intros i n p Hi. exists (freeze p).
    split; [by apply wrap_head_lookup, freeze_model_lookup|].
    unfold freeze; simpl. fold (ndim p).
    split; [done|]. split; [done|].
    destruct (decide (ndim p = 1%nat)); split; intros; done. }
  split; [apply wrap_head_name_other|].
  split; [reflexivity|]. split; [reflexivity|].
  rewrite count_parameters_sums.
  destruct (wrap_head_sums (freeze_model m)) as [-> ->].
  rewrite (sum_trainable_frozen _ (freeze_model_frozen m)).
  by rewrite freeze_model_numel.
Qed.

Lemma cell_freeze_freezes_witness :
  ∃ s',
    cell_freeze
      (mkState
         {[ "model" := VModel (mkModel 4
              [ ("model.decoder.final_layer_norm.bias", mkParam [4%N] true Float16);
                ("lm_head.weight", mkParam [10%N; 4%N] true Float16) ]);
            "torch" := VModule "torch";
            "nn" := VModule "torch.nn" ]} []) = (s', Ok tt) ∧
    globals s' !! "model"
      = Some (VModel (mkModel 4
          [ ("model.decoder.final_layer_norm.bias", mkParam [4%N] false Float32);
            ("lm_head.0.weight", mkParam [10%N; 4%N] false Float16) ])).
Proof.
  destruct (cell_freeze_freezes
              (mkState
                 {[ "model" := VModel (mkModel 4
                      [ ("model.decoder.final_layer_norm.bias", mkParam [4%N] true Float16);
                        ("lm_head.weight", mkParam [10%N; 4%N] true Float16) ]);
                    "torch" := VModule "torch";
                    "nn" := VModule "torch.nn" ]} [])
              4
              [ ("model.decoder.final_layer_norm.bias", mkParam [4%N] true Float16);
                ("lm_head.weight", mkParam [10%N; 4%N] true Float16) ]
              (VModule "torch") (VModule "torch.nn"))
    as (s' & m' & Hrun & _ & Hm & _ & _ & Hpos & _).
  - vm_compute. reflexivity.
  - vm_compute. reflexivity.
  - vm_compute. reflexivity.
  - exists s'. split; [exact Hrun|].
    replace s' with (s', Ok tt).1 by done. rewrite <- Hrun.
    vm_compute. reflexivity.
Defined.

(** X10: the freezing loop is idempotent, the freezing cell is not.  Run
    a second time where [model], [torch] and [nn] are bound, the cell
    returns again and leaves every parameter as the first run left it,
    but wraps the head once more: a parameter of the head is then listed
    under [lm_head.0.0.]. *)
Theorem cell_freeze_twice s h m tor nn :
  globals s !! "model" = Some (VModel (mkModel h m)) →
  globals s !! "torch" = Some tor →
  globals s !! "nn" = Some nn →
  freeze_model (freeze_model m) = freeze_model m ∧
  ∃ s1 s2,
    cell_freeze s = (s1, Ok tt) ∧
    cell_freeze s1 = (s2, Ok tt) ∧
    trace s2 = trace s ∧
    globals s1 !! "model"
      = Some (VModel (mkModel h (wrap_head (freeze_model m)))) ∧
    globals s2 !! "model"
      = Some (VModel (mkModel h (wrap_head (wrap_head (freeze_model m))))) ∧
    (∀ i n p, m !! i = Some (n, p) →
       wrap_head (freeze_model m) !! i = Some (wrap_head_name n, freeze p) ∧
       wrap_head (wrap_head (freeze_model m)) !! i
         = Some (wrap_head_name (wrap_head_name n), freeze p)) ∧
    wrap_head_name (wrap_head_name "lm_head.weight") = "lm_head.0.0.weight".
Proof.
  intros Hm Ht Hn. split; [apply freeze_model_idempotent|].
  destruct (cell_freeze_result s h m nn Hm (λ _, mk_is_Some _ _ Ht) Hn)
    as (s1 & Hrun1 & Htr1 & Hm1 & Hf1).
  assert (Ht1 : globals s1 !! "torch" = Some tor).
  { rewrite Hf1; [done|].
    rewrite !not_elem_of_cons. repeat split; try discriminate. apply not_elem_of_nil. }
  assert (Hn1 : globals s1 !! "nn" = Some nn).
  { rewrite Hf1; [done|].
    rewrite !not_elem_of_cons. repeat split; try discriminate. apply not_elem_of_nil. }
  destruct (cell_freeze_result s1 h _ nn Hm1 (λ _, mk_is_Some _ _ Ht1) Hn1)
    as (s2 & Hrun2 & Htr2 & Hm2 & _).
  rewrite wrap_head_freeze, freeze_model_idempotent in Hm2.
  exists s1, s2. split; [done|]. split; [done|].
  split; [congruence|]. split; [done|]. split; [done|]. split.
  - intros i n p Hi.
    pose proof (wrap_head_lookup _ _ _ _ (freeze_model_lookup _ _ _ _ Hi)) as H1.
    split; [done|]. by apply wrap_head_lookup.
  - reflexivity.
Qed.

Lemma cell_freeze_twice_witness :
  ∃ s1 s2,
    cell_freeze (cell_load_opt sample_hub initial).1 = (s1, Ok tt) ∧
    cell_freeze s1 = (s2, Ok tt) ∧
    trace s2 = [].
Proof.
  destruct (cell_freeze_twice (cell_load_opt sample_hub initial).1 4 small_base
              (VModule "torch") (VModule "torch.nn"))
    as (_ & s1 & s2 & Hrun1 & Hrun2 & Htr & _).
  - vm_compute. reflexivity.
  - vm_compute. reflexivity.
  - vm_compute. reflexivity.
  - exists s1, s2. split; [exact Hrun1|]. split; [exact Hrun2 | exact Htr].
Defined.

(** X12: the two counts do not depend on the order in which
    [named_parameters()] lists the parameters, and the counts of a model
    made of two parts are the sums of the counts of the parts. *)
Theorem count_parameters_order (m1 m2 : Model) :
  (m1 ≡ₚ m2 → count_parameters m1 = count_parameters m2) ∧
  count_parameters (m1 ++ m2) =
    (((count_parameters m1).1 + (count_parameters m2).1)%N,
     ((count_parameters m1).2 + (count_parameters m2).2)%N).
Proof.
  split.
  - intros Hp. rewrite !count_parameters_sums.
    induction Hp as [|x l l' _ IH|x y l|l l' l'' _ IH1 _ IH2]; simpl.
    + done.
    + injection IH as -> ->. done.
    + destruct (requires_grad x.2), (requires_grad y.2); f_equal; lia.
    + congruence.
  - rewrite !count_parameters_sums; simpl.
    by rewrite sum_trainable_app, sum_numel_app.
Qed.

Lemma count_parameters_order_witness :
  count_parameters (reverse small_base) = count_parameters small_base.
Proof.
  apply (proj1 (count_parameters_order (reverse small_base) small_base)).
  apply reverse_Permutation.
Defined.

(** ** The first training loop, where it can run *)


Lemma keeps_for_range x var body n : ∀ i,
  x ≠ var → keeps x body → keeps x (for_range_from i n var body).
Proof.
  induction n as [|n IH]; intros i Hx Hb; cbn [for_range_from].
  - apply keeps_ret.
  - apply keeps_bind; [by apply keeps_assign|]. intros _.
    apply keeps_bind; [done|]. intros _. by apply IH.
Qed.

Lemma epoch_body_keeps hub x labels :
  x ≠ "outputs" → x ≠ "loss" → keeps x (epoch_body hub labels).
Proof. intros H1 H2. unfold epoch_body. frame. Qed.



Lemma cell_train_keeps hub x :
  x ∉ ["optim"; "optimizer"; "criterion"; "num_epochs"; "epoch"; "outputs"; "loss"] →
  keeps x (cell_train hub).
Proof.
  intros Hx. rewrite !not_elem_of_cons in Hx.
  destruct Hx as (H1 & H2 & H3 & H4 & H5 & H6 & H7 & _).
  unfold cell_train, make_optimizer, make_criterion, train_loop, import_as.
  frame. unfold for_range. apply keeps_for_range; [done|].
  by apply epoch_body_keeps.
Qed.



(** ** The PEFT variant *)

(** The loading cell either stops on the hub's failure or binds the
    model, [torch] and [nn]; it calls nothing that is traced. *)
Lemma cell_load_opt_outcome hub :
  (∃ s' e, cell_load_opt hub initial = (s', Raise e) ∧ trace s' = []) ∨
  (∃ s' h ps,
     cell_load_opt hub initial = (s', Ok tt) ∧ trace s' = [] ∧
     globals s' !! "model" = Some (VModel (mkModel h ps)) ∧
     globals s' !! "torch" = Some (VModule "torch") ∧
     globals s' !! "nn" = Some (VModule "torch.nn")).
Proof.
  unfold cell_load_opt, load_model, load_tokenizer, import_as, initial.
  cbn [from_import]. exec_run.
  destruct (model_from_pretrained hub "facebook/opt-6.7b") as [[h ps]|e];
    [|left; by eexists _, _].
  exec_run.
  destruct (tokenizer_from_pretrained hub "facebook/opt-6.7b") as [tok|e];
    [|left; by eexists _, _].
  right. eexists _, h, ps. split; [reflexivity|]. cbn [globals trace].
  split; [done|]. by exec_run.
Qed.

(** X14: whatever the hub serves, the cells of the PEFT variant run in
    order from an empty namespace stop at the loading cell (the hub
    failed) or at the cell that defines [print_trainable_parameters],
    whose string literal is broken over two lines; adapter injection is
    not reached and nothing is printed or trained. *)
Theorem peft_variant_halts hub :
  ∃ s' k e,
    run_cells
      [ cell_load_opt hub; cell_freeze; cell_def_print; cell_lora;
        cell_trainer hub ] 0 initial = (s', Some (k, e)) ∧
    (k = 0%nat ∨ (k = 2%nat ∧ e = SyntaxError)) ∧
    trace s' = [].
Proof.
  cbn [run_cells].
  destruct (cell_load_opt_outcome hub)
    as [(s0 & e & Hrun & Htr) | (s0 & h & ps & Hrun & Htr & Hm & Ht & Hn)];
    rewrite Hrun.
  - exists s0, 0%nat, e. split; [done|]. split; [by left | done].
  - destruct (cell_freeze_result s0 h ps _ Hm (λ _, mk_is_Some _ _ Ht) Hn)
      as (s1 & Hrun1 & Htr1 & _).
    rewrite Hrun1. exists s1, 2%nat, SyntaxError.
    split; [done|]. split; [by right | congruence].
Qed.



(** ** The instruction variant, whatever the hub serves *)

Lemma instruction_cells_frame hub :
  silent (cell_load_gpt2 hub) ∧
  silent cell_instruction_dataset ∧
  silent cell_encode_instructions ∧ keeps "sentiments" cell_encode_instructions ∧
  silent cell_concat ∧ keeps "sentiments" cell_concat.
Proof.
  unfold cell_load_gpt2, load_tokenizer, load_model, cell_instruction_dataset,
    cell_encode_instructions, tokenize_into, extract_input_ids,
    extract_attention_mask, cell_concat, import_as.
  cbn [from_import].
  repeat split; frame.
Qed.

Lemma cell_instruction_dataset_sentiments s :
  (cell_instruction_dataset s).2 = Ok tt ∧
  globals (cell_instruction_dataset s).1 !! "sentiments" = Some (VStrList sentiments).
Proof.
  destruct s as [g tr]. unfold cell_instruction_dataset. exec_run.
  split; [done|]. cbn [fst globals]. by exec_run.
Qed.

(** X16: whatever the hub serves, the cells of the instruction variant
    run in order from an empty namespace end with an exception: at the
    latest the training cell raises when the strings of [sentiments]
    reach [torch.tensor].  No forward pass, backward pass or optimiser
    step is ever performed. *)
Theorem instruction_variant_never_trains hub :
  ∃ s' k e,
    run_cells
      [ cell_load_gpt2 hub; cell_instruction_dataset; cell_encode_instructions;
        cell_concat; cell_train_instructions hub ] 0 initial = (s', Some (k, e)) ∧
    (k ≤ 4)%nat ∧
    count_events is_forward (trace s') = 0%nat ∧
    count_events is_backward (trace s') = 0%nat ∧
    count_events is_step (trace s') = 0%nat.
Proof.
  destruct (instruction_cells_frame hub) as (Hs0 & Hs1 & Hs2 & Hk2 & Hs3 & Hk3).
  cbn [run_cells].
  specialize (Hs0 initial).
  destruct (cell_load_gpt2 hub initial) as [s0 [[]|e0]]; cbn [fst snd] in *.
  2:{ exists s0, 0%nat, e0. rewrite Hs0. split; [done|]. split; [lia|]. done. }
  specialize (Hs1 s0).
  destruct (cell_instruction_dataset_sentiments s0) as [Hok Hsent].
  destruct (cell_instruction_dataset s0) as [s1 [[]|e1]]; cbn [fst snd] in *; [|done].
  specialize (Hs2 s1). specialize (Hk2 s1).
  destruct (cell_encode_instructions s1) as [s2 [[]|e2]]; cbn [fst snd] in *.
  2:{ exists s2, 2%nat, e2. rewrite Hs2, Hs1, Hs0. split; [done|]. split; [lia|]. done. }
  specialize (Hs3 s2). specialize (Hk3 s2).
  destruct (cell_concat s2) as [s3 [[]|e3]]; cbn [fst snd] in *.
  2:{ exists s3, 3%nat, e3. rewrite Hs3, Hs2, Hs1, Hs0. split; [done|]. split; [lia|]. done. }
  destruct (cell_train_instructions_never_trains hub s3 "positive" ["negative"; "neutral"])
    as (s4 & e4 & Hrun & Htr).
  { rewrite Hk3, Hk2. exact Hsent. }
  rewrite Hrun. exists s4, 4%nat, e4. split; [done|]. split; [lia|].
  rewrite Hs3, Hs2, Hs1, Hs0 in Htr. simpl in Htr.
  destruct Htr as [-> | ->]; done.
Qed.

(** ** The report function *)

Lemma keeps_for_each x body positions :
  (∀ i, keeps x (body i)) → keeps x (for_each positions body).
Proof.
  intros Hb. induction positions as [|i rest IH]; cbn [for_each].
  - apply keeps_ret.
  - apply keeps_bind; [apply Hb | by intros _].
Qed.

Lemma freeze_at_keeps x i : x ≠ "model" → x ≠ "param" → keeps x (freeze_at i).
Proof.
  intros H1 H2. unfold freeze_at. apply keeps_bind; [apply keeps_read_as|].
  intros m. destruct (parameters m !! i) as [[name p]|]; [|apply keeps_ret].
  unfold set_param.
  destruct (decide (ndim p = 1%nat)); frame.
Qed.

(** No cell binds [print_trainable_parameters]. *)
Lemma notebook_keeps_print hub c :
  c ∈ notebook hub → keeps "print_trainable_parameters" c.
Proof.
  unfold notebook. rewrite !elem_of_cons, elem_of_nil.
  intros H. repeat (destruct H as [->|H]); [..|done].
  - unfold cell_load_distilbert, load_tokenizer, load_model.
    cbn [from_import]. frame.
  - unfold cell_dataset. frame.
  - unfold cell_encode, encode_texts, tokenize_into, extract_input_ids,
      extract_attention_mask, label_sentiments. frame.
  - unfold cell_head, import_as. frame.
  - apply cell_train_keeps.
    rewrite !not_elem_of_cons. repeat split; try discriminate. apply not_elem_of_nil.
  - unfold cell_load_gpt2, load_tokenizer, load_model. cbn [from_import]. frame.
  - unfold cell_instruction_dataset. frame.
  - unfold cell_encode_instructions, tokenize_into, extract_input_ids,
      extract_attention_mask. frame.
  - unfold cell_concat, import_as. frame.
  - unfold cell_train_instructions, make_optimizer, make_criterion, train_loop,
      import_as.
    frame. unfold for_range. apply keeps_for_range; [done|].
    by apply epoch_body_keeps.
  - unfold cell_load_opt, load_tokenizer, load_model, import_as.
    cbn [from_import]. frame.
  - unfold cell_freeze. frame. apply keeps_for_each. intros i. by apply freeze_at_keeps.
  - unfold cell_def_print. frame.
  - unfold cell_lora. cbn [from_import]. frame.
  - unfold cell_trainer, import_as. cbn [from_import]. frame.
Qed.

Lemma run_cells_keeps x cells : ∀ k s,
  Forall (keeps x) cells →
  globals (run_cells cells k s).1 !! x = globals s !! x.
Proof.
  induction cells as [|c cells IH]; intros k s Hc; [done|].
  apply Forall_cons in Hc as [Hk Hc]. cbn [run_cells].
  specialize (Hk s). destruct (c s) as [s1 [[]|e]]; cbn [fst] in *; [|done].
  by rewrite IH.
Qed.

(** C10: the cell that defines [print_trainable_parameters] does not
    parse: the literal with the percentage [100 * trainable_params /
    all_param] is broken over two lines.  So the name is bound by no
    cell: whatever cells of the notebook are run from an empty
    namespace, in whatever order and however often, it is unbound
    afterwards.  Where it is unbound the call in the adapter cell
    computes no percentage and divides by nothing: once the model is
    wrapped the cell raises [NameError], for a model with parameter
    elements and for a model without any alike, and before that it
    raises what the statement that failed raised, which is never
    [ZeroDivisionError]. *)
Theorem print_trainable_parameters_unbound hub :
  (∀ s, cell_def_print s = (s, Raise SyntaxError)) ∧
  (∀ cells k,
     Forall (λ c, c ∈ notebook hub) cells →
     globals (run_cells cells k initial).1 !! "print_trainable_parameters" = None) ∧
  (∀ s m wrapped,
     globals s !! "print_trainable_parameters" = None →
     globals s !! "model" = Some (VModel m) →
     get_peft_model (parameters m) config = Ok wrapped →
     ∃ s', cell_lora s = (s', Raise (NameError "print_trainable_parameters")) ∧
           trace s' = trace s ∧
           globals s' !! "model" = Some (VModel (mkModel (hidden_size m) wrapped))) ∧
  (∀ s,
     globals s !! "print_trainable_parameters" = None →
     ∃ s' e, cell_lora s = (s', Raise e) ∧ e ≠ ZeroDivisionError ∧
             trace s' = trace s) ∧
  (cell_lora (mkState {[ "model" := VModel (mkModel 4 small_base) ]} [])).2
    = Raise (NameError "print_trainable_parameters") ∧
  (cell_lora (mkState {[ "model" := VModel (mkModel 4 degenerate_base) ]} [])).2
    = Raise (NameError "print_trainable_parameters").
Proof.
  split; [done|]. split.
  { intros cells k Hc. rewrite run_cells_keeps; [done|].
    eapply Forall_impl; [exact Hc|]. apply notebook_keeps_print. }
  split.
  { intros [g tr] m wrapped Hp Hm Hw. cbn [globals trace] in *.
    unfold cell_lora. cbn [from_import]. exec_run.
    eexists. split; [reflexivity|]. cbn [globals trace].
    split; [done|]. by exec_run. }
  split.
  { intros [g tr] Hp. cbn [globals trace] in *.
    unfold cell_lora. cbn [from_import].
    destruct (g !! "model") as [vm|] eqn:Hm; [|exec_run; by eexists _, _].
    destruct vm; try (exec_run; by eexists _, _).
    exec_run. unfold get_peft_model.
    destruct (decide (parameters m ≫= adapters config = []));
      exec_run; by eexists _, _. }
  split; vm_compute; reflexivity.
Qed.

Lemma print_trainable_parameters_unbound_witness :
  globals (run_cells [cell_load_opt sample_hub; cell_freeze; cell_def_print;
                      cell_load_opt sample_hub; cell_freeze] 0 initial).1
    !! "print_trainable_parameters" = None ∧
  ∃ s', cell_lora (run_cells [cell_load_opt sample_hub; cell_freeze] 0 initial).1
          = (s', Raise (NameError "print_trainable_parameters")) ∧
        trace s' = [].
Proof.
  destruct (print_trainable_parameters_unbound sample_hub) as (_ & Hrun & Hcall & _).
  split.
  - apply Hrun. repeat constructor.
  - edestruct (Hcall (run_cells [cell_load_opt sample_hub; cell_freeze] 0 initial).1
                 (mkModel 4 (wrap_head (freeze_model small_base))))
      as (s' & H1 & H2 & _); try (vm_compute; reflexivity).
    exists s'. split; [exact H1 | exact H2].
Defined.
